(** * Session management of the Kenyan advisory chat front-end

    A shallow embedding of [frontend/src/ChatManager.jsx] (the session store
    held by [ChatProvider]) and of the two bot screens
    ([frontend/src/legalBot.jsx] and its agriculture twin), followed by the
    properties of the store that the specification states.

    Conventions of the embedding.
    - A JavaScript string is a [string]; one character stands for one UTF-16
      code unit, so [String.length] is [.length] and [substring 0 n] is
      [.substring(0, n)].
    - A [Date] is the number of milliseconds it holds, a [Z].  Every
      [new Date()] and [Date.now()] of the source is an explicit argument of
      the embedded function: the clock is an input.
    - The two [useState] cells of [ChatProvider] form the record [Store].  A
      function of the provider reads the cells through the closure of the
      render that created it (argument [snap]) and writes them with
      functional updaters, which React applies to the latest state (argument
      [prev]).  In an event handler that runs right after a render the two
      coincide. *)

From Stdlib Require Import List String Ascii ZArith Lia Bool.
From Stdlib Require Import Permutation Sorted DecimalString DecimalPos DecimalZ.
Import ListNotations.

Local Open Scope string_scope.
Local Open Scope list_scope.
Local Open Scope Z_scope.

(** ** Data model *)

(** The two keys of the state objects, ['agri'] and ['legal']. *)
Inductive BotType : Type := agri | legal.

(** An object [{ agri: _, legal: _ }]. *)
Record PerBot (A : Type) : Type := mkPerBot { of_agri : A; of_legal : A }.
Arguments mkPerBot {A} _ _.
Arguments of_agri {A} _.
Arguments of_legal {A} _.

(** [o[botType]] *)
Definition get {A} (botType : BotType) (o : PerBot A) : A :=
  match botType with agri => of_agri o | legal => of_legal o end.

(** [{ ...o, [botType]: v }] *)
Definition set {A} (botType : BotType) (v : A) (o : PerBot A) : PerBot A :=
  match botType with
  | agri => mkPerBot v (of_legal o)
  | legal => mkPerBot (of_agri o) v
  end.

(** Which of the keys [user] / [system] a message object carries. *)
Inductive Role : Type := user | system.

(** The object stored under that key: [{ content, timestamp? }]. *)
Record Payload : Type := mkPayload { content : string; timestamp : option Z }.

(** A message object: [{ user: p }] or [{ system: p }], with an optional
    [timestamp] key next to it (only the greeting of [createNewSession] has
    one there). *)
Record Turn : Type := mkTurn { key : Role; payload : Payload; own_timestamp : option Z }.

(** ['user' in msg] *)
Definition has_user (msg : Turn) : bool :=
  match key msg with user => true | system => false end.

(** ['system' in msg] *)
Definition has_system (msg : Turn) : bool :=
  match key msg with system => true | user => false end.

Record Session : Type := mkSession {
  id : string;
  title : string;
  messages : list Turn;
  createdAt : Z;
  updatedAt : Z
}.

(** The state of [ChatProvider]. *)
Record Store : Type := mkStore {
  chatSessions : PerBot (list Session);
  currentSessionId : PerBot (option string)
}.

(** [useState({agri: [], legal: []})], [useState({agri: null, legal: null})] *)
Definition initialStore : Store :=
  mkStore (mkPerBot [] []) (mkPerBot None None).

(** ** JavaScript primitives used by the source *)

(** Template-literal rendering of a non-negative integer. *)
Definition string_of_nat (n : nat) : string :=
  NilEmpty.string_of_uint (Nat.to_uint n).

(** Template-literal rendering of an integer (a millisecond count). *)
Definition string_of_Z (z : Z) : string :=
  NilZero.string_of_int (Z.to_int z).

(** [l[l.length - 1]], [None] standing for [undefined]. *)
Fixpoint last_elem {A} (l : list A) : option A :=
  match l with
  | [] => None
  | [x] => Some x
  | _ :: l' => last_elem l'
  end.

(** [Array.prototype.sort(cmp)].  ECMAScript fixes the result, not the
    algorithm: the elements in an order consistent with [cmp], elements that
    compare equal staying in their relative order.  Insertion from the right
    computes that list: [x] goes before the first [y] with [cmp x y <= 0]. *)
Fixpoint sort_insert {A} (cmp : A -> A -> Z) (x : A) (l : list A) : list A :=
  match l with
  | [] => [x]
  | y :: l' => if cmp x y <=? 0 then x :: l else y :: sort_insert cmp x l'
  end.

Fixpoint Array_sort {A} (cmp : A -> A -> Z) (l : list A) : list A :=
  match l with
  | [] => []
  | x :: l' => sort_insert cmp x (Array_sort cmp l')
  end.

(** ** ChatManager.jsx: the provider's functions *)

(** What one call of [createNewSession] reads from its environment, in
    program order: [Date.now()] and the random suffix of
    [generateSessionId], then the three [new Date()]. *)
Record CreateEnv : Type := mkCreateEnv {
  ce_now : Z;
  ce_random : string;
  ce_timestamp : Z;
  ce_createdAt : Z;
  ce_updatedAt : Z
}.

Definition generateSessionId (e : CreateEnv) : string :=
  ("session_" ++ string_of_Z (ce_now e) ++ "_" ++ ce_random e)%string.

Definition greetingContent (botType : BotType) : string :=
  match botType with
  | agri => "Hello! I'm your Kenyan Agriculture Advisor. Ask about crops, diseases, weather, or market prices."
  | legal => "Hello! I'm your Kenyan Legal Advisor. I can help with legal questions specific to Kenyan law."
  end.

(** The first message of a new session:
    [{ system: { content: ... }, timestamp: new Date() }]. *)
Definition greetingTurn (botType : BotType) (t : Z) : Turn :=
  mkTurn system (mkPayload (greetingContent botType) None) (Some t).

Definition newSession (snap : Store) (botType : BotType) (e : CreateEnv) : Session :=
  mkSession
    (generateSessionId e)
    ("Chat " ++ string_of_nat (List.length (get botType (chatSessions snap)) + 1))%string
    [greetingTurn botType (ce_timestamp e)]
    (ce_createdAt e)
    (ce_updatedAt e).

Definition createNewSession (snap : Store) (botType : BotType) (e : CreateEnv)
    (prev : Store) : string * Store :=
  let sessionId := generateSessionId e in
  (sessionId,
   mkStore
     (set botType (get botType (chatSessions prev) ++ [newSession snap botType e])
          (chatSessions prev))
     (set botType (Some sessionId) (currentSessionId prev))).

(** [getCurrentSession]; [None] stands for both [null] and [undefined].
    [!sessionId] also holds of the empty string. *)
Definition getCurrentSession (snap : Store) (botType : BotType) : option Session :=
  match get botType (currentSessionId snap) with
  | None => None
  | Some sessionId =>
      if (sessionId =? "")%string then None
      else find (fun session => (id session =? sessionId)%string)
                (get botType (chatSessions snap))
  end.

Definition generateSessionTitle (messages : list Turn) : string :=
  match find has_user messages with
  | Some firstUserMessage =>
      let content := content (payload firstUserMessage) in
      if (30 <? String.length content)%nat
      then (substring 0 30 content ++ "...")%string
      else content
  | None => "New Chat"
  end.

(** [updateSession]; [now] is the [new Date()] of the updater. *)
Definition updateSession (botType : BotType) (sessionId : string)
    (newMessages : list Turn) (now : Z) (prev : Store) : Store :=
  mkStore
    (set botType
       (map (fun session =>
               if (id session =? sessionId)%string
               then mkSession (id session) (generateSessionTitle newMessages)
                              newMessages (createdAt session) now
               else session)
            (get botType (chatSessions prev)))
       (chatSessions prev))
    (currentSessionId prev).

Definition switchToSession (botType : BotType) (sessionId : string)
    (prev : Store) : Store :=
  mkStore (chatSessions prev) (set botType (Some sessionId) (currentSessionId prev)).

(** [session => session.id !== sessionId] *)
Definition other_than (sessionId : string) (session : Session) : bool :=
  negb (id session =? sessionId)%string.

Definition deleteSession (snap : Store) (botType : BotType) (sessionId : string)
    (prev : Store) : Store :=
  let sessions' := filter (other_than sessionId) (get botType (chatSessions prev)) in
  let current' :=
    match get botType (currentSessionId snap) with
    | Some cur =>
        if (cur =? sessionId)%string then
          let remainingSessions :=
            filter (other_than sessionId) (get botType (chatSessions snap)) in
          match last_elem remainingSessions with
          | Some s => set botType (Some (id s)) (currentSessionId prev)
          | None => set botType None (currentSessionId prev)
          end
        else currentSessionId prev
    | None => currentSessionId prev
    end in
  mkStore (set botType sessions' (chatSessions prev)) current'.

(** [(a, b) => new Date(b.updatedAt) - new Date(a.updatedAt)] *)
Definition byUpdatedAtDesc (a b : Session) : Z := updatedAt b - updatedAt a.

(** [getSessions] sorts the array held by the state in place and returns it:
    the result is the returned array together with the store as the call
    leaves it. *)
Definition getSessions (snap : Store) (botType : BotType) : list Session * Store :=
  let sorted := Array_sort byUpdatedAtDesc (get botType (chatSessions snap)) in
  (sorted, mkStore (set botType sorted (chatSessions snap)) (currentSessionId snap)).

(** The store operations as an event handler runs them: the closure is the
    one of the latest render, so [snap] and [prev] are the same store. *)
Definition createSession (botType : BotType) (e : CreateEnv) (st : Store) : string * Store :=
  createNewSession st botType e st.

Definition removeSession (botType : BotType) (sessionId : string) (st : Store) : Store :=
  deleteSession st botType sessionId st.

(** ** legalBot.jsx and its agriculture twin: the bot screens

    The two components differ in three constants only, collected in a
    [BotConfig]. *)

Record BotConfig : Type := mkBotConfig {
  botType : BotType;
  loadingContent : string;
  apologyContent : string
}.

Definition Legalbot : BotConfig :=
  mkBotConfig legal
    "Analyzing your legal question..."
    "Sorry, I encountered an error processing your legal question. Please try again.".

Definition Agribot : BotConfig :=
  mkBotConfig agri
    "Analyzing your agricultural question..."
    "Sorry, I encountered an error processing your agricultural question. Please try again.".

(** The component's own [useState] cells. *)
Record View : Type := mkView {
  inputValue : string;
  isLoading : bool;
  showHistory : bool
}.

(** The [disabled] attribute of the text input. *)
Definition inputDisabled (ui : View) : bool := isLoading ui.

(** The code units below 256 that [String.prototype.trim] strips. *)
Definition is_white_space (c : ascii) : bool :=
  let n := nat_of_ascii c in
  ((9 <=? n) && (n <=? 13) || (n =? 32) || (n =? 160))%nat.

(** [!s.trim()] *)
Definition blank (s : string) : bool :=
  forallb is_white_space (list_ascii_of_string s).

(** How [await backend.chat(...)] settles; the error value is only logged. *)
Inductive ChatOutcome : Type :=
| Resolved (response : string)
| Rejected (err : string).

(** A computation suspended at its [await]: the argument of the pending call
    and what runs once the call settles. *)
Inductive Async (A : Type) : Type :=
| Await (request : list Turn) (resume : ChatOutcome -> A).
Arguments Await {A} _ _.

Definition request {A} (a : Async A) : list Turn :=
  match a with Await r _ => r end.

Definition resume {A} (a : Async A) : ChatOutcome -> A :=
  match a with Await _ k => k end.

(** The [new Date()] read after the call settled: the reply's timestamp and
    the [updatedAt] of the updater. *)
Record SettleEnv : Type := mkSettleEnv { st_timestamp : Z; st_updatedAt : Z }.

(** The filter of [sendMessage]:
    ['user' in msg || ('system' in msg && msg.system.content !== loading)] *)
Definition sendable (cfg : BotConfig) (msg : Turn) : bool :=
  has_user msg
  || (has_system msg && negb (content (payload msg) =? loadingContent cfg)%string).

(** [messages.slice(1).filter(...)] *)
Definition messagesToSend (cfg : BotConfig) (messages : list Turn) : list Turn :=
  filter (sendable cfg) (tl messages).

(** [[...messages]], [pop()], [push({ system: { content, timestamp } })] *)
Definition replaceLast (messages : list Turn) (text : string) (t : Z) : list Turn :=
  removelast messages ++ [mkTurn system (mkPayload text (Some t)) None].

(** The [try], [catch] and [finally] blocks of [sendMessage] after the call
    settled. *)
Definition settle (cfg : BotConfig) (currentSession : Session)
    (messages : list Turn) (o : ChatOutcome) (e : SettleEnv)
    (prev : Store) (ui : View) : Store * View :=
  let prev' :=
    match o with
    | Resolved response =>
        let updatedMessages := replaceLast messages response (st_timestamp e) in
        updateSession (botType cfg) (id currentSession) updatedMessages
                      (st_updatedAt e) prev
    | Rejected err =>
        let updatedMessages :=
          replaceLast messages (apologyContent cfg) (st_timestamp e) in
        updateSession (botType cfg) (id currentSession) updatedMessages
                      (st_updatedAt e) prev
    end in
  (prev', mkView (inputValue ui) false (showHistory ui)).

Definition sendMessage (cfg : BotConfig) (currentSession : Session)
    (messages : list Turn)
    : Async (SettleEnv -> Store -> View -> Store * View) :=
  Await (messagesToSend cfg messages) (settle cfg currentSession messages).

(** The three [new Date()] of a submit: the user turn, the placeholder, and
    the [updatedAt] of the updater. *)
Record SubmitEnv : Type := mkSubmitEnv { su_user : Z; su_loading : Z; su_updatedAt : Z }.

Definition userTurn (text : string) (t : Z) : Turn :=
  mkTurn user (mkPayload text (Some t)) None.

Definition loadingTurn (cfg : BotConfig) (t : Z) : Turn :=
  mkTurn system (mkPayload (loadingContent cfg) (Some t)) None.

(** What a submit that passed its guard leaves behind. *)
Record Submitted : Type := mkSubmitted {
  sub_store : Store;
  sub_view : View;
  sub_messages : list Turn;
  sub_call : Async (SettleEnv -> Store -> View -> Store * View)
}.

(** [handleSubmit]; [None] is the early [return]. *)
Definition handleSubmit (cfg : BotConfig) (snap : Store) (ui : View)
    (e : SubmitEnv) (prev : Store) : option Submitted :=
  if blank (inputValue ui) then None
  else
    match getCurrentSession snap (botType cfg) with
    | None => None
    | Some currentSession =>
        let userMessage := userTurn (inputValue ui) (su_user e) in
        let loadingMessage := loadingTurn cfg (su_loading e) in
        let newMessages := messages currentSession ++ [userMessage; loadingMessage] in
        Some (mkSubmitted
                (updateSession (botType cfg) (id currentSession) newMessages
                               (su_updatedAt e) prev)
                (mkView "" true (showHistory ui))
                newMessages
                (sendMessage cfg currentSession newMessages))
    end.

(** The mount effect: [if (!currentSession) createNewSession(botType)]. *)
Definition initialize (cfg : BotConfig) (snap : Store) (e : CreateEnv)
    (prev : Store) : Store :=
  match getCurrentSession snap (botType cfg) with
  | None => snd (createNewSession snap (botType cfg) e prev)
  | Some _ => prev
  end.

(** ** The system as a whole

    A configuration is the store together with the calls in flight, the
    latest clock reading, and a log of every greeting ever seeded (a history
    variable: no code reads it). *)

Record Pending : Type := mkPending {
  p_cfg : BotConfig;
  p_session : Session;
  p_messages : list Turn
}.

Record Sys : Type := mkSys {
  store : Store;
  inflight : list Pending;
  seeded : list (BotType * string * Turn);
  clock : Z
}.

Definition initialSys (t0 : Z) : Sys := mkSys initialStore [] [] t0.

Definition is_screen (cfg : BotConfig) : Prop := cfg = Legalbot \/ cfg = Agribot.

(** One event of the page.  [step_create] is [createNewSession], called by
    the mount effect and by the two "New Chat" buttons; [step_submit] is
    [handleSubmit] with the [updateSession] it queues; [step_settle] is the
    rest of a [sendMessage] whose call came back; [step_switch] and
    [step_delete] are the clicks of the history panel; [step_list] is the
    [getSessions] of a render of that panel.  Clock readings never
    decrease. *)
Inductive step : Sys -> Sys -> Prop :=
| step_create : forall s snap bt e,
    clock s <= ce_now e -> ce_now e <= ce_timestamp e ->
    ce_timestamp e <= ce_createdAt e -> ce_createdAt e <= ce_updatedAt e ->
    step s (mkSys (snd (createNewSession snap bt e (store s)))
                  (inflight s)
                  ((bt, generateSessionId e, greetingTurn bt (ce_timestamp e)) :: seeded s)
                  (ce_updatedAt e))
| step_submit : forall s cfg ui e r cur,
    is_screen cfg ->
    clock s <= su_user e -> su_user e <= su_loading e ->
    su_loading e <= su_updatedAt e ->
    getCurrentSession (store s) (botType cfg) = Some cur ->
    handleSubmit cfg (store s) ui e (store s) = Some r ->
    step s (mkSys (sub_store r)
                  (mkPending cfg cur (sub_messages r) :: inflight s)
                  (seeded s)
                  (su_updatedAt e))
| step_settle : forall s p before after o e ui,
    inflight s = before ++ p :: after ->
    clock s <= st_timestamp e -> st_timestamp e <= st_updatedAt e ->
    step s (mkSys (fst (resume (sendMessage (p_cfg p) (p_session p) (p_messages p))
                               o e (store s) ui))
                  (before ++ after)
                  (seeded s)
                  (st_updatedAt e))
| step_switch : forall s bt sessionId,
    step s (mkSys (switchToSession bt sessionId (store s))
                  (inflight s) (seeded s) (clock s))
| step_delete : forall s bt sessionId,
    step s (mkSys (removeSession bt sessionId (store s))
                  (inflight s) (seeded s) (clock s))
| step_list : forall s bt,
    step s (mkSys (snd (getSessions (store s) bt))
                  (inflight s) (seeded s) (clock s)).

Inductive reachable : Sys -> Prop :=
| reach_init : forall t0, reachable (initialSys t0)
| reach_step : forall s s', reachable s -> step s s' -> reachable s'.

(** ** Notions used by the statements *)

(** Sorting by a key, latest first. *)
Section SortKey.
Context {A : Type}.
Variable k : A -> Z.

(** The comparator [(a, b) => k(b) - k(a)]. *)
Definition desc_cmp (a b : A) : Z := k b - k a.

(** [a] may stand before [b]. *)
Definition desc (a b : A) : Prop := k b <= k a.

(** The elements whose key is [t], in list order. *)
Definition with_key (t : Z) (l : list A) : list A :=
  filter (fun a => k a =? t) l.
End SortKey.

(** How [updateSession] relates a stored session to what replaces it. *)
Definition updated_from (sessionId : string) (newMessages : list Turn) (now : Z)
    (old new : Session) : Prop :=
  if (id old =? sessionId)%string
  then id new = id old
       /\ messages new = newMessages
       /\ updatedAt new = now
       /\ updatedAt old <= updatedAt new
       /\ createdAt new = createdAt old
  else new = old.

(** The transient placeholder, as the specification words it: a turn with
    the [system] key whose content is the category's loading text. *)
Definition is_placeholder (cfg : BotConfig) (msg : Turn) : bool :=
  has_system msg && (content (payload msg) =? loadingContent cfg)%string.

(** The specification's description of the sequence handed to the inference
    call: the history without its first turn and without any placeholder. *)
Definition history_for_inference (cfg : BotConfig) (ms : list Turn) : list Turn :=
  filter (fun msg => negb (is_placeholder cfg msg)) (tl ms).

(** [{ system: { content: apology, timestamp: t } }] *)
Definition apologyTurn (cfg : BotConfig) (t : Z) : Turn :=
  mkTurn system (mkPayload (apologyContent cfg) (Some t)) None.

(** [ms] starts with a greeting of category [bt] that the log records as
    seeded for the session id [sid]. *)
Definition greeted (log : list (BotType * string * Turn)) (bt : BotType)
    (sid : string) (ms : list Turn) : Prop :=
  exists t rest, ms = greetingTurn bt t :: rest
                 /\ In (bt, sid, greetingTurn bt t) log.

(** A stored session starts with its seeded greeting and was last updated
    no later than the latest clock reading. *)
Definition session_ok (log : list (BotType * string * Turn)) (clk : Z)
    (bt : BotType) (x : Session) : Prop :=
  greeted log bt (id x) (messages x) /\ updatedAt x <= clk.

Definition store_ok (log : list (BotType * string * Turn)) (clk : Z)
    (st : Store) : Prop :=
  forall bt x, In x (get bt (chatSessions st)) -> session_ok log clk bt x.

(** A call in flight holds a transcript that starts with the seeded greeting
    of its session and has at least one more message, the one to replace. *)
Definition pending_ok (log : list (BotType * string * Turn)) (p : Pending) : Prop :=
  exists body final,
    p_messages p = body ++ [final]
    /\ greeted log (botType (p_cfg p)) (id (p_session p)) body.

(** The invariant of the reachable configurations. *)
Definition Inv (s : Sys) : Prop :=
  store_ok (seeded s) (clock s) (store s)
  /\ Forall (pending_ok (seeded s)) (inflight s).

(** ** Concrete runs used as instances *)

(** Three readings of the environment, a second apart. *)
Definition env0 : CreateEnv := mkCreateEnv 1000 "k3j9x0q2a" 1000 1000 1000.
Definition env1 : CreateEnv := mkCreateEnv 2000 "p7w1m4z8c" 2000 2000 2000.
Definition env2 : CreateEnv := mkCreateEnv 3000 "t5b2n6y0d" 3000 3000 3000.

(** Three sessions created one after the other in the agriculture category;
    the third is the current one. *)
Definition threeSessions : Store :=
  snd (createSession agri env2
        (snd (createSession agri env1
               (snd (createSession agri env0 initialStore))))).

(** The legal screen with one session open, and a question submitted on it. *)
Definition legalStore : Store := snd (createSession legal env0 initialStore).
Definition legalSession : Session := newSession initialStore legal env0.
Definition askView : View := mkView "Can a tenant be evicted without notice?" false false.
Definition askEnv : SubmitEnv := mkSubmitEnv 5000 5000 5001.

Definition askedMessages : list Turn :=
  messages legalSession
    ++ [userTurn "Can a tenant be evicted without notice?" 5000;
        loadingTurn Legalbot 5000].

Definition asked : Submitted :=
  mkSubmitted
    (updateSession legal (id legalSession) askedMessages 5001 legalStore)
    (mkView "" true false)
    askedMessages
    (sendMessage Legalbot legalSession askedMessages).

(** A run of the page: the legal screen opens a session, the question is
    submitted, the call fails. *)
Definition sys1 : Sys :=
  mkSys legalStore []
        [(legal, generateSessionId env0, greetingTurn legal (ce_timestamp env0))]
        (ce_updatedAt env0).

Definition sys2 : Sys :=
  mkSys (sub_store asked)
        [mkPending Legalbot legalSession (sub_messages asked)]
        (seeded sys1) (su_updatedAt askEnv).

Definition failEnv : SettleEnv := mkSettleEnv 6000 6001.

Definition sys3 : Sys :=
  mkSys (fst (resume (sendMessage Legalbot legalSession (sub_messages asked))
                     (Rejected "network") failEnv (store sys2) (sub_view asked)))
        [] (seeded sys2) (st_updatedAt failEnv).

(** The session of [sys3], after the failed call. *)
Definition failedSession : Session :=
  hd legalSession (get legal (chatSessions (store sys3))).

(** ** ChatManager.jsx: the history panel *)

(** [1000 * 60 * 60 * 24] *)
Definition msPerDay : Z := 1000 * 60 * 60 * 24.

(** [Math.ceil(a / b)] for integers [a] and [b > 0].  The quotient is only
    compared with 1, 2 and 7 and printed when it is at most 7; on that range
    the floating-point quotient and its ceiling are the exact ones. *)
Definition Math_ceil_div (a b : Z) : Z := - ((- a) / b).

(** [formatDate] of [ChatHistory]; [now] is its [new Date()].  The text of
    [toLocaleDateString] depends on the browser's locale and is a parameter. *)
Definition formatDate (toLocaleDateString : Z -> string) (now date : Z) : string :=
  let diffTime := Z.abs (now - date) in
  let diffDays := Math_ceil_div diffTime msPerDay in
  if diffDays =? 1 then "Today"
  else if diffDays =? 2 then "Yesterday"
  else if diffDays <=? 7 then (string_of_Z (diffDays - 1) ++ " days ago")%string
  else toLocaleDateString date.

(** One entry of the session list as [ChatHistory] renders it: title, date
    label, the number in "n messages", and whether it carries the highlight
    of the current session. *)
Record HistoryRow : Type := mkHistoryRow {
  hr_id : string;
  hr_title : string;
  hr_date : string;
  hr_count : nat;
  hr_current : bool
}.

(** [currentSessionId[botType] === session.id] *)
Definition is_current (snap : Store) (botType : BotType) (session : Session) : bool :=
  match get botType (currentSessionId snap) with
  | Some cur => (cur =? id session)%string
  | None => false
  end.

(** The body of [ChatHistory]: [getSessions(botType)], then one row per
    session.  The store comes back as the listing leaves it. *)
Definition renderHistory (toLocaleDateString : Z -> string) (now : Z)
    (snap : Store) (botType : BotType) : list HistoryRow * Store :=
  let sessions := getSessions snap botType in
  (map (fun session =>
          mkHistoryRow (id session) (title session)
                       (formatDate toLocaleDateString now (updatedAt session))
                       (List.length (messages session))
                       (is_current snap botType session))
       (fst sessions),
   snd sessions).

(** [handleDeleteSession]: [deleteSession] runs only if [window.confirm]
    returned true. *)
Definition handleDeleteSession (confirmed : bool) (snap : Store)
    (botType : BotType) (sessionId : string) (prev : Store) : Store :=
  if confirmed then deleteSession snap botType sessionId prev else prev.

(** ** The bot screens: rendering the transcript *)

(** [s.slice(-2)] *)
Definition slice_last2 (s : string) : string :=
  substring (String.length s - 2) 2 s.

(** [formatTime]; [hours] and [minutes] are [date.getHours()] and
    [date.getMinutes()]. *)
Definition formatTime (hours minutes : nat) : string :=
  let h := ("0" ++ string_of_nat hours)%string in
  let m := ("0" ++ string_of_nat minutes)%string in
  (slice_last2 h ++ ":" ++ slice_last2 m)%string.

(** One bubble of the transcript: the side it is drawn on, its text, and the
    time under it when [message.timestamp] is set. *)
Record Bubble : Type := mkBubble {
  b_isUser : bool;
  b_text : string;
  b_time : option string
}.

(** The callback of [currentSession.messages.map]; [getHours] and
    [getMinutes] read a date in the browser's time zone. *)
Definition renderMessage (getHours getMinutes : Z -> nat) (m : Turn) : Bubble :=
  let isUser := has_user m in
  let message := payload m in
  mkBubble isUser (content message)
           (match timestamp message with
            | Some t => Some (formatTime (getHours t) (getMinutes t))
            | None => None
            end).

Definition renderTranscript (getHours getMinutes : Z -> nat)
    (currentSession : Session) : list Bubble :=
  map (renderMessage getHours getMinutes) (messages currentSession).

(** ** Further notions used by the statements *)

(** [c] occurs in [s]. *)
Fixpoint string_mem (c : ascii) (s : string) : bool :=
  match s with
  | EmptyString => false
  | String a s' => Ascii.eqb a c || string_mem c s'
  end.

(** The two decimal digits of a number below 100. *)
Definition two_digits (n : nat) : string :=
  String (ascii_of_nat (48 + n / 10))
         (String (ascii_of_nat (48 + n mod 10)) EmptyString).

(** A turn as the screens build them: under the given key, with a timestamp
    inside the payload and none beside it. *)
Definition stamped (r : Role) (m : Turn) : Prop :=
  key m = r /\ timestamp (payload m) <> None /\ own_timestamp m = None.

(** A sequence of question and answer pairs, no question being blank. *)
Inductive exchanges : list Turn -> Prop :=
| ex_nil : exchanges []
| ex_cons : forall u a rest,
    stamped user u -> blank (content (payload u)) = false ->
    stamped system a -> exchanges rest ->
    exchanges (u :: a :: rest).

(** The title rule applied to one question. *)
Definition truncated (content : string) : string :=
  if (30 <? String.length content)%nat
  then (substring 0 30 content ++ "...")%string
  else content.

(** What holds of every stored session: the transcript is the greeting
    followed by exchanges, the id was generated, the title is the one given
    at creation as long as nothing was asked and the derived one afterwards,
    and the dates are in order. *)
Definition session_shape (clk : Z) (bt : BotType) (x : Session) : Prop :=
  (exists t ex, messages x = greetingTurn bt t :: ex /\ exchanges ex)
  /\ (exists e, id x = generateSessionId e)
  /\ ((List.length (messages x) = 1%nat
        /\ exists n, title x = ("Chat " ++ string_of_nat (S n))%string)
       \/ ((1 < List.length (messages x))%nat
           /\ title x = generateSessionTitle (messages x)))
  /\ createdAt x <= updatedAt x /\ updatedAt x <= clk.

Definition pending_shape (p : Pending) : Prop :=
  exists t ex u l,
    p_messages p = greetingTurn (botType (p_cfg p)) t :: ex ++ [u; l]
    /\ exchanges ex /\ stamped user u /\ blank (content (payload u)) = false
    /\ stamped system l
    /\ exists e, id (p_session p) = generateSessionId e.

Definition Shape (s : Sys) : Prop :=
  (forall bt x, In x (get bt (chatSessions (store s))) -> session_shape (clock s) bt x)
  /\ Forall pending_shape (inflight s).

(** The events of the page when ids are fresh and the history panel is the
    only caller of [switchToSession]: a created id is new in its category
    (it combines the clock and a random suffix), and a switch goes to a
    session of the list. *)
Inductive page_step : Sys -> Sys -> Prop :=
| page_create : forall s snap bt e,
    clock s <= ce_now e -> ce_now e <= ce_timestamp e ->
    ce_timestamp e <= ce_createdAt e -> ce_createdAt e <= ce_updatedAt e ->
    (forall x, In x (get bt (chatSessions (store s))) -> id x <> generateSessionId e) ->
    page_step s (mkSys (snd (createNewSession snap bt e (store s)))
                       (inflight s)
                       ((bt, generateSessionId e, greetingTurn bt (ce_timestamp e))
                          :: seeded s)
                       (ce_updatedAt e))
| page_submit : forall s cfg ui e r cur,
    is_screen cfg ->
    clock s <= su_user e -> su_user e <= su_loading e ->
    su_loading e <= su_updatedAt e ->
    getCurrentSession (store s) (botType cfg) = Some cur ->
    handleSubmit cfg (store s) ui e (store s) = Some r ->
    page_step s (mkSys (sub_store r)
                       (mkPending cfg cur (sub_messages r) :: inflight s)
                       (seeded s)
                       (su_updatedAt e))
| page_settle : forall s p before after o e ui,
    inflight s = before ++ p :: after ->
    clock s <= st_timestamp e -> st_timestamp e <= st_updatedAt e ->
    page_step s (mkSys (fst (resume (sendMessage (p_cfg p) (p_session p) (p_messages p))
                                    o e (store s) ui))
                       (before ++ after)
                       (seeded s)
                       (st_updatedAt e))
| page_switch : forall s bt x,
    In x (get bt (chatSessions (store s))) ->
    page_step s (mkSys (switchToSession bt (id x) (store s))
                       (inflight s) (seeded s) (clock s))
| page_delete : forall s bt sessionId,
    page_step s (mkSys (removeSession bt sessionId (store s))
                       (inflight s) (seeded s) (clock s))
| page_list : forall s bt,
    page_step s (mkSys (snd (getSessions (store s) bt))
                       (inflight s) (seeded s) (clock s)).

Inductive page_reachable : Sys -> Prop :=
| page_init : forall t0, page_reachable (initialSys t0)
| page_more : forall s s', page_reachable s -> page_step s s' -> page_reachable s'.

(** The current pointer of a category is set exactly when the category has
    sessions, and then names one of them. *)
Definition pointer_ok (st : Store) (bt : BotType) : Prop :=
  match get bt (currentSessionId st) with
  | None => get bt (chatSessions st) = []
  | Some cur => exists x, In x (get bt (chatSessions st)) /\ id x = cur
  end.

Definition Page (s : Sys) : Prop :=
  forall bt,
    NoDup (map id (get bt (chatSessions (store s))))
    /\ pointer_ok (store s) bt.

(** ** Basic facts about the primitives *)

Section PerBotFacts.
Context {A : Type}.

Lemma get_set_same (bt : BotType) (v : A) (o : PerBot A) :
  get bt (set bt v o) = v.
Proof. destruct bt; reflexivity. Qed.

Lemma get_set_other (bt bt' : BotType) (v : A) (o : PerBot A) :
  bt' <> bt -> get bt' (set bt v o) = get bt' o.
Proof. destruct bt, bt'; intros H; try reflexivity; contradiction H; reflexivity. Qed.

Lemma set_get_same (bt : BotType) (o : PerBot A) :
  set bt (get bt o) o = o.
Proof. destruct bt, o; reflexivity. Qed.
End PerBotFacts.

Lemma last_elem_snoc {A} (l : list A) (x : A) : last_elem (l ++ [x]) = Some x.
Proof.
  induction l as [|y l IH]; [reflexivity|].
  simpl. rewrite IH. destruct (l ++ [x]) eqn:E; [|reflexivity].
  destruct l; discriminate E.
Qed.

Lemma last_elem_none {A} (l : list A) : last_elem l = None <-> l = [].
Proof.
  split; [|intros ->; reflexivity].
  induction l as [|y l IH]; [reflexivity|].
  simpl. destruct l; [discriminate|]. intros H. specialize (IH H). discriminate IH.
Qed.

Lemma last_elem_In {A} (l : list A) (x : A) : last_elem l = Some x -> In x l.
Proof.
  induction l as [|y l IH]; [discriminate|].
  simpl. destruct l.
  - intros [= ->]. now left.
  - intros H. right. apply IH, H.
Qed.

Lemma other_than_true (sessionId : string) (s : Session) :
  other_than sessionId s = true <-> id s <> sessionId.
Proof.
  unfold other_than. rewrite negb_true_iff. split.
  - intros H E. apply String.eqb_eq in E. congruence.
  - intros H. apply String.eqb_neq, H.
Qed.

Lemma filter_other_than_all (sessionId : string) (l : list Session) :
  (forall x, In x l -> id x <> sessionId) -> filter (other_than sessionId) l = l.
Proof.
  induction l as [|a l IH]; intros H; [reflexivity|].
  simpl. destruct (other_than sessionId a) eqn:E.
  - f_equal. apply IH. intros x Hx. apply H. now right.
  - exfalso. apply (H a); [now left|].
    unfold other_than in E. apply negb_false_iff, String.eqb_eq in E. exact E.
Qed.

Lemma generateSessionId_not_empty (e : CreateEnv) :
  (generateSessionId e =? "")%string = false.
Proof. reflexivity. Qed.

Example generateSessionId_env0 : generateSessionId env0 = "session_1000_k3j9x0q2a".
Proof. reflexivity. Qed.

Example threeSessions_titles :
  map title (get agri (chatSessions threeSessions)) = ["Chat 1"; "Chat 2"; "Chat 3"].
Proof. reflexivity. Qed.

(** The mount effect creates a session exactly when the screen has none. *)
Lemma initialize_cases (cfg : BotConfig) (snap : Store) (e : CreateEnv) (prev : Store) :
  (getCurrentSession snap (botType cfg) = None
   /\ initialize cfg snap e prev = snd (createNewSession snap (botType cfg) e prev))
  \/ ((exists cur, getCurrentSession snap (botType cfg) = Some cur)
      /\ initialize cfg snap e prev = prev).
Proof.
  unfold initialize. destruct (getCurrentSession snap (botType cfg)) as [cur|].
  - right. split; [now exists cur | reflexivity].
  - left. split; reflexivity.
Qed.

(** ** deleteSession *)

Lemma removeSession_sessions (st : Store) (bt : BotType) (sessionId : string) :
  get bt (chatSessions (removeSession bt sessionId st)) =
  filter (other_than sessionId) (get bt (chatSessions st)).
Proof. unfold removeSession, deleteSession. simpl. apply get_set_same. Qed.

Lemma removeSession_current (st : Store) (bt : BotType) (sessionId : string) :
  get bt (currentSessionId st) = Some sessionId ->
  get bt (currentSessionId (removeSession bt sessionId st)) =
  option_map id (last_elem (filter (other_than sessionId) (get bt (chatSessions st)))).
Proof.
  intros Hcur. unfold removeSession, deleteSession. simpl.
  rewrite Hcur, String.eqb_refl.
  destruct (last_elem _); simpl; apply get_set_same.
Qed.

(** C1. [deleteSession(category, sessionId)], run by an event handler, keeps
    of the category's collection exactly the sessions whose id differs from
    [sessionId], in their stored order (so with unique ids it removes that
    one session and nothing else).  If [sessionId] was the category's
    current session, the current pointer becomes the id of the last element,
    in stored order, of the remaining collection, or none if nothing
    remains; otherwise the current pointer is unchanged.  The other category
    is not touched. *)
Theorem deleteSession_spec :
  forall (st : Store) (bt : BotType) (sessionId : string),
    let st' := removeSession bt sessionId st in
    let remaining := get bt (chatSessions st') in
    remaining = filter (other_than sessionId) (get bt (chatSessions st))
    /\ (forall s, In s remaining <->
                  In s (get bt (chatSessions st)) /\ id s <> sessionId)
    /\ (forall before s after,
           get bt (chatSessions st) = before ++ s :: after ->
           id s = sessionId ->
           (forall x, In x (before ++ after) -> id x <> sessionId) ->
           remaining = before ++ after)
    /\ (get bt (currentSessionId st) = Some sessionId ->
          (forall l s, remaining = l ++ [s] ->
                       get bt (currentSessionId st') = Some (id s))
          /\ (remaining = [] -> get bt (currentSessionId st') = None))
    /\ (get bt (currentSessionId st) <> Some sessionId ->
          get bt (currentSessionId st') = get bt (currentSessionId st))
    /\ (forall bt', bt' <> bt ->
          get bt' (chatSessions st') = get bt' (chatSessions st)
          /\ get bt' (currentSessionId st') = get bt' (currentSessionId st)).
Proof.
  intros st bt sessionId st' remaining.
  assert (Hrem : remaining = filter (other_than sessionId) (get bt (chatSessions st)))
    by apply removeSession_sessions.
  split; [exact Hrem|].
  split.
  { intros s. rewrite Hrem, filter_In, other_than_true. reflexivity. }
  split.
  { intros before s after Hl Hid Hothers. rewrite Hrem, Hl.
    rewrite filter_app. simpl.
    assert (Hs : other_than sessionId s = false).
    { unfold other_than. rewrite Hid, String.eqb_refl. reflexivity. }
    rewrite Hs, <- filter_app. apply filter_other_than_all, Hothers. }
  split.
  { intros Hcur.
    assert (Hptr : get bt (currentSessionId st') =
                   option_map id (last_elem remaining)).
    { rewrite Hrem. apply removeSession_current, Hcur. }
    split.
    - intros l s Hl. rewrite Hptr, Hl, last_elem_snoc. reflexivity.
    - intros Hl. rewrite Hptr, Hl. reflexivity. }
  split.
  { intros Hcur. subst st'. unfold removeSession, deleteSession. simpl.
    destruct (get bt (currentSessionId st)) as [cur|] eqn:E; [|congruence].
    destruct (String.eqb_spec cur sessionId) as [->|Hne]; [|congruence].
    contradiction Hcur; reflexivity. }
  intros bt' Hbt'. subst st'. unfold removeSession, deleteSession. simpl.
  split; [apply get_set_other, Hbt'|].
  destruct (get bt (currentSessionId st)) as [cur|]; [|reflexivity].
  destruct (cur =? sessionId)%string; [|reflexivity].
  destruct (last_elem _); apply get_set_other, Hbt'.
Qed.

(** ** createNewSession *)

Lemma find_app_none {A} (f : A -> bool) (l : list A) (x : A) :
  (forall y, In y l -> f y = false) -> f x = true -> find f (l ++ [x]) = Some x.
Proof.
  intros Hl Hx. induction l as [|a l IH]; simpl.
  - now rewrite Hx.
  - rewrite (Hl a) by now left. apply IH. intros y Hy. apply Hl. now right.
Qed.

(** C2. For every category, [createSession(category)] builds a session whose
    message list has length exactly 1; that sole turn carries the [system]
    key, the greeting text of the category (the two categories have
    different texts) and a timestamp read from the clock during the call
    (stored next to the [system] key, the payload itself has none).  The
    session is appended at the end of the category's collection, its id
    becomes the category's current pointer and is the returned value (so it
    is the current session whenever no older session has the same id), and
    the other category's collection and pointer are unchanged.  This holds
    whatever render the calling closure comes from. *)
Theorem createNewSession_spec :
  forall (snap prev : Store) (bt : BotType) (e : CreateEnv),
    let s := newSession snap bt e in
    let r := createNewSession snap bt e prev in
    List.length (messages s) = 1%nat
    /\ (exists g, messages s = [g]
          /\ key g = system
          /\ content (payload g) = greetingContent bt
          /\ own_timestamp g = Some (ce_timestamp e)
          /\ timestamp (payload g) = None)
    /\ greetingContent agri <> greetingContent legal
    /\ get bt (chatSessions (snd r)) = get bt (chatSessions prev) ++ [s]
    /\ get bt (currentSessionId (snd r)) = Some (id s)
    /\ fst r = id s
    /\ ((forall x, In x (get bt (chatSessions prev)) -> id x <> id s) ->
        getCurrentSession (snd r) bt = Some s)
    /\ (forall bt', bt' <> bt ->
          get bt' (chatSessions (snd r)) = get bt' (chatSessions prev)
          /\ get bt' (currentSessionId (snd r)) = get bt' (currentSessionId prev)).
Proof.
  intros snap prev bt e s r.
  split; [reflexivity|].
  split. { exists (greetingTurn bt (ce_timestamp e)). repeat split. }
  split. { discriminate. }
  assert (Hsess : get bt (chatSessions (snd r)) = get bt (chatSessions prev) ++ [s])
    by (subst r s; simpl; apply get_set_same).
  assert (Hcur : get bt (currentSessionId (snd r)) = Some (id s))
    by (subst r s; simpl; apply get_set_same).
  split; [exact Hsess|]. split; [exact Hcur|]. split; [reflexivity|].
  split.
  { intros Hfresh. unfold getCurrentSession. rewrite Hcur, Hsess.
    replace (id s =? "")%string with false by reflexivity.
    apply find_app_none.
    - intros y Hy. apply String.eqb_neq, Hfresh, Hy.
    - apply String.eqb_refl. }
  intros bt' Hbt'. subst r. simpl. split; apply get_set_other, Hbt'.
Qed.

(** ** Session titles *)



(** [substring 0 n s] is the prefix of [s] of length [n]. *)
Lemma substring_prefix (n : nat) (s : string) :
  (n <= String.length s)%nat ->
  exists rest, s = (substring 0 n s ++ rest)%string
               /\ String.length (substring 0 n s) = n.
Proof.
  revert s. induction n as [|n IH]; intros s Hn.
  - exists s. destruct s; split; reflexivity.
  - destruct s as [|c s]; [simpl in Hn; lia|].
    destruct (IH s) as [rest [Hs Hlen]]; [simpl in Hn; lia|].
    exists rest. simpl. split; [f_equal; exact Hs | f_equal; exact Hlen].
Qed.

Lemma updateSession_sessions (bt : BotType) (sessionId : string)
    (newMessages : list Turn) (now : Z) (prev : Store) :
  get bt (chatSessions (updateSession bt sessionId newMessages now prev)) =
  map (fun session =>
         if (id session =? sessionId)%string
         then mkSession (id session) (generateSessionTitle newMessages)
                        newMessages (createdAt session) now
         else session)
      (get bt (chatSessions prev)).
Proof. unfold updateSession. simpl. apply get_set_same. Qed.


(** C5, as stated, fails: the first session created in a category is titled
    ["Chat 1"], not ["New Chat"]. *)
Lemma first_session_title_counterexample :
  let s := newSession initialStore agri env0 in
  get agri (chatSessions (snd (createSession agri env0 initialStore))) = [s]
  /\ title s = "Chat 1"
  /\ title s <> "New Chat".
Proof. repeat split. discriminate. Qed.

(** C5, amended.  For every category a session immediately after
    [createSession] contains no turn with the [user] key, and its title is
    ["Chat N"], with N one more than the number of sessions the category held
    in the render the call was made from; this is never ["New Chat"], which
    is what the title derivation rule gives on the session's message list
    and what the title becomes only at the first [updateMessages] without a
    user turn. *)
Theorem createNewSession_title :
  forall (snap prev : Store) (bt : BotType) (e : CreateEnv),
    let s := newSession snap bt e in
    In s (get bt (chatSessions (snd (createNewSession snap bt e prev))))
    /\ (forall m, In m (messages s) -> key m = system)
    /\ title s = ("Chat " ++ string_of_nat
                    (List.length (get bt (chatSessions snap)) + 1))%string
    /\ title s <> "New Chat"
    /\ generateSessionTitle (messages s) = "New Chat".
Proof.
  intros snap prev bt e s.
  split.
  { simpl. rewrite get_set_same. apply in_or_app. right. now left. }
  split.
  { intros m [<-|[]]. reflexivity. }
  split; [reflexivity|].
  split; [|reflexivity].
  simpl. discriminate.
Qed.

(** ** Sorting by a key, latest first *)

Section SortByKey.
Context {A : Type}.
Variable k : A -> Z.

Lemma sort_insert_perm (x : A) (l : list A) :
  Permutation (x :: l) (sort_insert (desc_cmp k) x l).
Proof.
  induction l as [|y l IH]; simpl; [apply Permutation_refl|].
  destruct (desc_cmp k x y <=? 0); [apply Permutation_refl|].
  eapply perm_trans; [apply perm_swap|]. now apply perm_skip.
Qed.

Lemma Array_sort_perm (l : list A) : Permutation l (Array_sort (desc_cmp k) l).
Proof.
  induction l as [|x l IH]; simpl; [constructor|].
  eapply perm_trans; [apply perm_skip, IH | apply sort_insert_perm].
Qed.

Lemma sort_insert_sorted (x : A) (l : list A) :
  StronglySorted (desc k) l -> StronglySorted (desc k) (sort_insert (desc_cmp k) x l).
Proof.
  induction 1 as [|y l Hl IH Hy]; simpl.
  - repeat constructor.
  - unfold desc_cmp at 1. destruct (Z.leb_spec (k y - k x) 0) as [Hle|Hgt].
    + constructor; [constructor; assumption|].
      constructor; [unfold desc; lia|].
      eapply Forall_impl; [|exact Hy]. unfold desc. intros a Ha. lia.
    + constructor; [exact IH|].
      eapply Permutation_Forall; [apply sort_insert_perm|].
      constructor; [unfold desc; lia | exact Hy].
Qed.

Lemma Array_sort_sorted (l : list A) : StronglySorted (desc k) (Array_sort (desc_cmp k) l).
Proof.
  induction l as [|x l IH]; simpl; [constructor | now apply sort_insert_sorted].
Qed.

Lemma sort_insert_stable (t : Z) (x : A) (l : list A) :
  with_key k t (sort_insert (desc_cmp k) x l) = with_key k t (x :: l).
Proof.
  induction l as [|y l IH]; [reflexivity|].
  simpl. unfold desc_cmp at 1.
  destruct (Z.leb_spec (k y - k x) 0) as [Hle|Hgt]; [reflexivity|].
  change (with_key k t (y :: sort_insert (desc_cmp k) x l) = with_key k t (x :: y :: l)).
  unfold with_key in *. simpl in *. rewrite IH.
  destruct (Z.eqb_spec (k y) t), (Z.eqb_spec (k x) t); try reflexivity. lia.
Qed.

Lemma Array_sort_stable (t : Z) (l : list A) :
  with_key k t (Array_sort (desc_cmp k) l) = with_key k t l.
Proof.
  induction l as [|x l IH]; [reflexivity|].
  simpl. rewrite sort_insert_stable. unfold with_key in *. simpl. now rewrite IH.
Qed.

Lemma Array_sort_fixed (l : list A) :
  StronglySorted (desc k) l -> Array_sort (desc_cmp k) l = l.
Proof.
  induction 1 as [|x l Hl IH Hx]; [reflexivity|].
  simpl. rewrite IH. destruct l as [|y l]; [reflexivity|].
  simpl. unfold desc_cmp. inversion Hx as [|? ? Hxy _]; subst.
  unfold desc in Hxy. destruct (Z.leb_spec (k y - k x) 0); [reflexivity|lia].
Qed.

Lemma sorted_filter (f : A -> bool) (l : list A) :
  StronglySorted (desc k) l -> StronglySorted (desc k) (filter f l).
Proof.
  induction 1 as [|x l Hl IH Hx]; simpl; [constructor|].
  destruct (f x); [|exact IH].
  constructor; [exact IH|].
  apply Forall_forall. intros y Hy. apply filter_In in Hy.
  rewrite Forall_forall in Hx. apply Hx, Hy.
Qed.

Lemma sorted_app_inv (l1 l2 : list A) :
  StronglySorted (desc k) (l1 ++ l2) ->
  forall a b, In a l1 -> In b l2 -> desc k a b.
Proof.
  induction l1 as [|x l1 IH]; intros Hs a b Ha Hb; [destruct Ha|].
  simpl in Hs. inversion Hs as [|? ? Hs' Hx]; subst.
  destruct Ha as [<-|Ha].
  - rewrite Forall_forall in Hx. apply Hx, in_or_app. now right.
  - now apply IH.
Qed.

(** The first element of a sorted list has the greatest key. *)
Lemma sorted_head_max (x : A) (l : list A) :
  StronglySorted (desc k) (x :: l) -> forall y, In y (x :: l) -> k y <= k x.
Proof.
  intros Hs y [<-|Hy]; [lia|].
  inversion Hs as [|? ? _ Hx]; subst. rewrite Forall_forall in Hx.
  apply Hx, Hy.
Qed.

(** The last element of a sorted list has the least key. *)
Lemma sorted_last_min (l : list A) (x : A) :
  StronglySorted (desc k) (l ++ [x]) -> forall y, In y (l ++ [x]) -> k x <= k y.
Proof.
  intros Hs y Hy. apply in_app_or in Hy. destruct Hy as [Hy|[<-|[]]]; [|lia].
  apply (sorted_app_inv l [x] Hs y x Hy). now left.
Qed.

(** A stable sort is determined by its input: two sorted lists with the
    same elements under every key, in the same order, are equal.  So any
    algorithm the engine uses for [sort] returns [Array_sort]. *)
Lemma stable_sorted_unique (l1 l2 : list A) :
  StronglySorted (desc k) l1 -> StronglySorted (desc k) l2 ->
  (forall t, with_key k t l1 = with_key k t l2) -> l1 = l2.
Proof.
  intros H1. revert l2. induction H1 as [|x l1 Hl1 IH Hx]; intros l2 H2 Hk.
  - destruct l2 as [|y l2]; [reflexivity|].
    specialize (Hk (k y)). unfold with_key in Hk. simpl in Hk.
    rewrite Z.eqb_refl in Hk. discriminate.
  - destruct H2 as [|y l2 Hl2 Hy].
    + specialize (Hk (k x)). unfold with_key in Hk. simpl in Hk.
      rewrite Z.eqb_refl in Hk. discriminate.
    + assert (Hxin : In x (y :: l2)).
      { pose proof (Hk (k x)) as H. unfold with_key in H.
        assert (In x (filter (fun a => k a =? k x) (x :: l1))) as Hin
            by (simpl; rewrite Z.eqb_refl; now left).
        rewrite H in Hin. apply filter_In in Hin. tauto. }
      assert (Hyin : In y (x :: l1)).
      { pose proof (Hk (k y)) as H. unfold with_key in H.
        assert (In y (filter (fun a => k a =? k y) (y :: l2))) as Hin
            by (simpl; rewrite Z.eqb_refl; now left).
        rewrite <- H in Hin. apply filter_In in Hin. tauto. }
      assert (Hkxy : k x = k y).
      { apply Z.le_antisymm.
        - apply (sorted_head_max y l2); [now constructor | exact Hxin].
        - apply (sorted_head_max x l1); [now constructor | exact Hyin]. }
      assert (Hxy : x = y).
      { pose proof (Hk (k x)) as H. unfold with_key in H. simpl in H.
        rewrite <- Hkxy, Z.eqb_refl in H. congruence. }
      subst y. f_equal. apply IH; [exact Hl2|].
      intros t. specialize (Hk t). unfold with_key in *. simpl in Hk.
      destruct (k x =? t); congruence.
Qed.

Lemma Array_sort_unique (l l' : list A) :
  StronglySorted (desc k) l' -> (forall t, with_key k t l' = with_key k t l) ->
  l' = Array_sort (desc_cmp k) l.
Proof.
  intros Hs Hk. apply stable_sorted_unique; [exact Hs | apply Array_sort_sorted|].
  intros t. now rewrite Hk, Array_sort_stable.
Qed.
End SortByKey.

(** ** getSessions *)

Lemma byUpdatedAtDesc_desc_cmp : byUpdatedAtDesc = desc_cmp updatedAt.
Proof. reflexivity. Qed.

Lemma getSessions_fst (st : Store) (bt : BotType) :
  fst (getSessions st bt) = Array_sort (desc_cmp updatedAt) (get bt (chatSessions st)).
Proof. reflexivity. Qed.

Lemma getSessions_snd (st : Store) (bt : BotType) :
  get bt (chatSessions (snd (getSessions st bt))) =
  Array_sort (desc_cmp updatedAt) (get bt (chatSessions st)).
Proof. unfold getSessions. simpl. apply get_set_same. Qed.



(** Two sessions created within one millisecond keep their stored order. *)
Example getSessions_tie :
  let twin := mkCreateEnv 1000 "z0y9x8w7v" 1000 1000 1000 in
  let st := snd (createSession agri twin (snd (createSession agri env0 initialStore))) in
  map id (fst (getSessions st agri)) = [generateSessionId env0; generateSessionId twin].
Proof. reflexivity. Qed.

(** C10. [getSessions] is not a pure read: the category's stored array is
    left sorted by [updatedAt] descending (it is the returned array), the
    current pointers and the other category being untouched, and it stays
    that way under further calls.  A [deleteSession] of the current session
    after it makes current the last element of the reordered array, a
    survivor with the least [updatedAt].  On three sessions created in a row
    this is the oldest one, where without the listing it is the one inserted
    last among the survivors. *)
Theorem getSessions_sorts_in_place :
  (forall (st : Store) (bt : BotType),
      let st' := snd (getSessions st bt) in
      get bt (chatSessions st') = fst (getSessions st bt)
      /\ StronglySorted (fun a b => updatedAt b <= updatedAt a)
                        (get bt (chatSessions st'))
      /\ Permutation (get bt (chatSessions st)) (get bt (chatSessions st'))
      /\ currentSessionId st' = currentSessionId st
      /\ (forall bt', bt' <> bt ->
             get bt' (chatSessions st') = get bt' (chatSessions st))
      /\ getSessions st' bt = (get bt (chatSessions st'), st')
      /\ (forall sessionId l x,
             get bt (currentSessionId st) = Some sessionId ->
             filter (other_than sessionId) (get bt (chatSessions st')) = l ++ [x] ->
             let st'' := removeSession bt sessionId st' in
             get bt (currentSessionId st'') = Some (id x)
             /\ In x (get bt (chatSessions st''))
             /\ forall y, In y (get bt (chatSessions st'')) ->
                          updatedAt x <= updatedAt y))
  /\ (let st := threeSessions in
      let first := generateSessionId env0 in
      let second := generateSessionId env1 in
      let third := generateSessionId env2 in
      map id (get agri (chatSessions st)) = [first; second; third]
      /\ get agri (currentSessionId st) = Some third
      /\ map id (get agri (chatSessions (snd (getSessions st agri))))
         = [third; second; first]
      /\ snd (getSessions st agri) <> st
      /\ get agri (currentSessionId (removeSession agri third st)) = Some second
      /\ get agri (currentSessionId
                     (removeSession agri third (snd (getSessions st agri))))
         = Some first
      /\ first <> second).
Proof.
  split.
  - intros st bt st'.
    assert (Hst' : get bt (chatSessions st') =
                   Array_sort (desc_cmp updatedAt) (get bt (chatSessions st)))
      by apply getSessions_snd.
    assert (Hsorted : StronglySorted (desc updatedAt) (get bt (chatSessions st')))
      by (rewrite Hst'; apply Array_sort_sorted).
    split; [exact Hst'|]. split; [exact Hsorted|].
    split; [rewrite Hst'; apply Array_sort_perm|].
    split; [reflexivity|].
    split; [intros bt' Hbt'; subst st'; simpl; apply get_set_other, Hbt'|].
    split.
    { unfold getSessions at 1. rewrite byUpdatedAtDesc_desc_cmp.
      rewrite (Array_sort_fixed updatedAt _ Hsorted).
      f_equal. destruct st' as [cs cur]. simpl. now rewrite set_get_same. }
    intros sessionId l x Hcur Hrem st''.
    assert (Hcur' : get bt (currentSessionId st') = Some sessionId) by exact Hcur.
    subst st''. rewrite removeSession_sessions, (removeSession_current _ _ _ Hcur').
    rewrite Hrem, last_elem_snoc.
    split; [reflexivity|].
    split; [apply in_or_app; right; now left|].
    apply (sorted_last_min updatedAt). rewrite <- Hrem.
    apply sorted_filter, Hsorted.
  - cbv zeta. repeat split; try reflexivity.
    + intros H. apply (f_equal (fun s => map updatedAt (get agri (chatSessions s)))) in H.
      vm_compute in H. discriminate H.
    + intros H. vm_compute in H. discriminate H.
Qed.

(** ** The bot screens: what is sent, and how a call settles *)

Lemma sendable_not_placeholder (cfg : BotConfig) (msg : Turn) :
  sendable cfg msg = negb (is_placeholder cfg msg).
Proof.
  unfold sendable, is_placeholder, has_user, has_system.
  destruct (key msg); [reflexivity|].
  simpl. reflexivity.
Qed.

Lemma messagesToSend_history (cfg : BotConfig) (ms : list Turn) :
  messagesToSend cfg ms = history_for_inference cfg ms.
Proof.
  unfold messagesToSend, history_for_inference.
  apply filter_ext. intros msg. apply sendable_not_placeholder.
Qed.

Lemma handleSubmit_inv (cfg : BotConfig) (snap : Store) (ui : View)
    (e : SubmitEnv) (prev : Store) (r : Submitted) :
  handleSubmit cfg snap ui e prev = Some r ->
  exists cur,
    blank (inputValue ui) = false
    /\ getCurrentSession snap (botType cfg) = Some cur
    /\ r = mkSubmitted
             (updateSession (botType cfg) (id cur)
                (messages cur ++ [userTurn (inputValue ui) (su_user e);
                                  loadingTurn cfg (su_loading e)])
                (su_updatedAt e) prev)
             (mkView "" true (showHistory ui))
             (messages cur ++ [userTurn (inputValue ui) (su_user e);
                               loadingTurn cfg (su_loading e)])
             (sendMessage cfg cur
                (messages cur ++ [userTurn (inputValue ui) (su_user e);
                                  loadingTurn cfg (su_loading e)])).
Proof.
  unfold handleSubmit. intros H.
  destruct (blank (inputValue ui)); [discriminate|].
  destruct (getCurrentSession snap (botType cfg)) as [cur|]; [|discriminate].
  injection H as <-. exists cur. repeat split.
Qed.

Lemma updateSession_messages (bt : BotType) (sessionId : string)
    (newMessages : list Turn) (now : Z) (prev : Store) (s' : Session) :
  In s' (get bt (chatSessions (updateSession bt sessionId newMessages now prev))) ->
  id s' = sessionId -> messages s' = newMessages.
Proof.
  intros Hin Hid. rewrite updateSession_sessions in Hin.
  apply in_map_iff in Hin. destruct Hin as [s [Hs _]].
  destruct (String.eqb_spec (id s) sessionId); subst s'; [reflexivity|contradiction].
Qed.

Lemma placeholder_loadingTurn (cfg : BotConfig) (t : Z) :
  is_placeholder cfg (loadingTurn cfg t) = true.
Proof. unfold is_placeholder. simpl. apply String.eqb_refl. Qed.

Lemma asked_submitted :
  handleSubmit Legalbot legalStore askView askEnv legalStore = Some asked.
Proof. reflexivity. Qed.

(** C6. For every submit, on either screen, the sequence handed to the
    inference call is the submitted message list (the current session's
    messages followed by the new user turn and the placeholder, which is
    also what the store then holds for that session) without its first turn
    and without every [system] turn whose content is the screen's loading
    text; every other turn is kept, in order.  When the session starts with
    its greeting this is the earlier history, filtered the same way,
    followed by the new user turn. *)
Theorem sendMessage_request_spec :
  forall (cfg : BotConfig) (snap : Store) (ui : View) (e : SubmitEnv)
         (prev : Store) (r : Submitted),
    handleSubmit cfg snap ui e prev = Some r ->
    exists cur,
      getCurrentSession snap (botType cfg) = Some cur
      /\ sub_messages r =
         messages cur ++ [userTurn (inputValue ui) (su_user e);
                          loadingTurn cfg (su_loading e)]
      /\ (forall s',
             In s' (get (botType cfg) (chatSessions (sub_store r))) ->
             id s' = id cur -> messages s' = sub_messages r)
      /\ request (sub_call r) = history_for_inference cfg (sub_messages r)
      /\ (forall msg, In msg (request (sub_call r)) <->
                      In msg (tl (sub_messages r)) /\ is_placeholder cfg msg = false)
      /\ (forall g rest, messages cur = g :: rest ->
             request (sub_call r) =
             history_for_inference cfg (g :: rest)
               ++ [userTurn (inputValue ui) (su_user e)]).
Proof.
  intros cfg snap ui e prev r H.
  destruct (handleSubmit_inv _ _ _ _ _ _ H) as [cur (_ & Hcur & ->)].
  exists cur. cbn [sub_messages sub_store sub_call sub_view].
  split; [exact Hcur|]. split; [reflexivity|].
  split; [intros s' Hin Hid; eapply updateSession_messages; eassumption|].
  split; [apply messagesToSend_history|].
  split.
  { intros msg. cbn [sendMessage request].
    rewrite messagesToSend_history. unfold history_for_inference.
    rewrite filter_In, negb_true_iff. reflexivity. }
  intros g rest Hg. cbn [sendMessage request].
  rewrite messagesToSend_history, Hg.
  unfold history_for_inference. simpl. rewrite filter_app. simpl.
  rewrite placeholder_loadingTurn. reflexivity.
Qed.

Lemma sendMessage_request_spec_witness :
  exists cur,
    getCurrentSession legalStore legal = Some cur
    /\ sub_messages asked =
       messages cur ++ [userTurn (inputValue askView) 5000; loadingTurn Legalbot 5000]
    /\ (forall s',
           In s' (get legal (chatSessions (sub_store asked))) ->
           id s' = id cur -> messages s' = sub_messages asked)
    /\ request (sub_call asked) = history_for_inference Legalbot (sub_messages asked)
    /\ (forall msg, In msg (request (sub_call asked)) <->
                    In msg (tl (sub_messages asked))
                    /\ is_placeholder Legalbot msg = false)
    /\ (forall g rest, messages cur = g :: rest ->
           request (sub_call asked) =
           history_for_inference Legalbot (g :: rest)
             ++ [userTurn (inputValue askView) 5000]).
Proof.
  apply (sendMessage_request_spec Legalbot legalStore askView askEnv legalStore asked).
  reflexivity.
Defined.

(** What is sent for the first question of a session: the question alone. *)
Example asked_request :
  request (sub_call asked) = [userTurn "Can a tenant be evicted without notice?" 5000].
Proof. reflexivity. Qed.

(** C7. If the inference call of a submit fails, the list handed to
    [updateSession] for the submitting session is the submitted transcript
    with its last message, the loading placeholder, replaced by a [system]
    turn carrying the screen's fixed apology text, every earlier turn
    unchanged, and that is what the session holds afterwards; the two
    screens have different apology texts.  Whatever the outcome of the call,
    the loading flag is false afterwards and the input is enabled, having
    been disabled by the submit. *)
Theorem sendMessage_settle_spec :
  forall (cfg : BotConfig) (snap : Store) (ui : View) (e : SubmitEnv)
         (prev : Store) (r : Submitted),
    handleSubmit cfg snap ui e prev = Some r ->
    exists cur transcript,
      getCurrentSession snap (botType cfg) = Some cur
      /\ sub_messages r = transcript ++ [loadingTurn cfg (su_loading e)]
      /\ inputDisabled (sub_view r) = true
      /\ (forall err e' prev' ui',
             let done := resume (sub_call r) (Rejected err) e' prev' ui' in
             fst done =
               updateSession (botType cfg) (id cur)
                 (transcript ++ [apologyTurn cfg (st_timestamp e')])
                 (st_updatedAt e') prev'
             /\ forall s',
                  In s' (get (botType cfg) (chatSessions (fst done))) ->
                  id s' = id cur ->
                  messages s' = transcript ++ [apologyTurn cfg (st_timestamp e')])
      /\ (forall o e' prev' ui',
             let done := resume (sub_call r) o e' prev' ui' in
             isLoading (snd done) = false /\ inputDisabled (snd done) = false)
      /\ apologyContent Legalbot <> apologyContent Agribot.
Proof.
  intros cfg snap ui e prev r H.
  destruct (handleSubmit_inv _ _ _ _ _ _ H) as [cur (_ & Hcur & ->)].
  exists cur, (messages cur ++ [userTurn (inputValue ui) (su_user e)]).
  cbn [sub_messages sub_store sub_call sub_view].
  split; [exact Hcur|].
  split; [now rewrite <- app_assoc|].
  split; [reflexivity|].
  assert (Hrepl : forall t,
             replaceLast (messages cur ++ [userTurn (inputValue ui) (su_user e);
                                           loadingTurn cfg (su_loading e)])
                         (apologyContent cfg) t
             = (messages cur ++ [userTurn (inputValue ui) (su_user e)])
                 ++ [apologyTurn cfg t]).
  { intros t. unfold replaceLast.
    replace (messages cur ++ [userTurn (inputValue ui) (su_user e);
                              loadingTurn cfg (su_loading e)])
      with ((messages cur ++ [userTurn (inputValue ui) (su_user e)])
              ++ [loadingTurn cfg (su_loading e)])
      by now rewrite <- app_assoc.
    now rewrite removelast_last. }
  split.
  { intros err e' prev' ui'. cbn [sendMessage resume settle fst]. rewrite Hrepl.
    split; [reflexivity|].
    intros s' Hin Hid. eapply updateSession_messages; eassumption. }
  split.
  { intros o e' prev' ui'. split; reflexivity. }
  discriminate.
Qed.

Lemma sendMessage_settle_spec_witness :
  exists cur transcript,
    getCurrentSession legalStore (botType Legalbot) = Some cur
    /\ sub_messages asked = transcript ++ [loadingTurn Legalbot (su_loading askEnv)]
    /\ inputDisabled (sub_view asked) = true
    /\ (forall err e' prev' ui',
           let done := resume (sub_call asked) (Rejected err) e' prev' ui' in
           fst done =
             updateSession (botType Legalbot) (id cur)
               (transcript ++ [apologyTurn Legalbot (st_timestamp e')])
               (st_updatedAt e') prev'
           /\ forall s',
                In s' (get (botType Legalbot) (chatSessions (fst done))) ->
                id s' = id cur ->
                messages s' = transcript ++ [apologyTurn Legalbot (st_timestamp e')])
    /\ (forall o e' prev' ui',
           let done := resume (sub_call asked) o e' prev' ui' in
           isLoading (snd done) = false /\ inputDisabled (snd done) = false)
    /\ apologyContent Legalbot <> apologyContent Agribot.
Proof.
  apply (sendMessage_settle_spec Legalbot legalStore askView askEnv legalStore asked).
  reflexivity.
Defined.

(** The failed call on the concrete submit: greeting, question, apology. *)
Example asked_rejected :
  map (fun m => content (payload m))
      (messages
         (hd (newSession initialStore legal env0)
             (get legal (chatSessions
                (fst (resume (sub_call asked) (Rejected "network")
                             (mkSettleEnv 6000 6001) (sub_store asked)
                             (sub_view asked)))))))
  = [greetingContent legal;
     "Can a tenant be evicted without notice?";
     "Sorry, I encountered an error processing your legal question. Please try again."].
Proof. reflexivity. Qed.

(** ** Invariants of the reachable configurations *)

Section Preservation.
Variables log log' : list (BotType * string * Turn).
Hypothesis log_grows : incl log log'.

Lemma greeted_mono bt sid ms : greeted log bt sid ms -> greeted log' bt sid ms.
Proof.
  intros (t & rest & Hms & Hin). exists t, rest. split; [exact Hms|].
  apply log_grows, Hin.
Qed.

Lemma store_ok_mono clk clk' st :
  clk <= clk' -> store_ok log clk st -> store_ok log' clk' st.
Proof.
  intros Hclk Hok bt x Hx. destruct (Hok bt x Hx) as [Hg Hu].
  split; [apply greeted_mono, Hg | lia].
Qed.

Lemma pending_ok_mono p : pending_ok log p -> pending_ok log' p.
Proof.
  intros (body & final & Hp & Hg). exists body, final.
  split; [exact Hp | apply greeted_mono, Hg].
Qed.
End Preservation.

Lemma greeted_app log bt sid ms more :
  greeted log bt sid ms -> greeted log bt sid (ms ++ more).
Proof.
  intros (t & rest & -> & Hin). exists t, (rest ++ more). split; [reflexivity|exact Hin].
Qed.

Lemma store_ok_updateSession log clk st bt sid ms now :
  store_ok log clk st -> greeted log bt sid ms -> now <= clk ->
  store_ok log clk (updateSession bt sid ms now st).
Proof.
  intros Hok Hg Hnow bt' x Hx.
  destruct bt, bt'; try (apply Hok; exact Hx).
  all: rewrite updateSession_sessions in Hx; apply in_map_iff in Hx;
    destruct Hx as [x0 [Hx0 Hin]];
    destruct (String.eqb_spec (id x0) sid) as [E|E]; subst x;
    [ split; simpl; [rewrite E; exact Hg | exact Hnow]
    | apply Hok, Hin ].
Qed.

Lemma getCurrentSession_In (st : Store) (bt : BotType) (cur : Session) :
  getCurrentSession st bt = Some cur ->
  In cur (get bt (chatSessions st)) /\ get bt (currentSessionId st) = Some (id cur).
Proof.
  unfold getCurrentSession. intros H.
  destruct (get bt (currentSessionId st)) as [sessionId|]; [|discriminate].
  destruct (sessionId =? "")%string; [discriminate|].
  apply find_some in H. destruct H as [Hin Hid].
  apply String.eqb_eq in Hid. subst sessionId. split; [exact Hin|reflexivity].
Qed.

Lemma step_preserves_Inv (s s' : Sys) : step s s' -> Inv s -> Inv s'.
Proof.
  intros Hstep [Hstore Hfly].
  destruct Hstep as
    [ s snap bt e H1 H2 H3 H4
    | s cfg ui e r cur Hcfg H1 H2 H3 Hcur Hsub
    | s p before after o e ui Hp H1 H2
    | s bt sessionId | s bt sessionId | s bt ]; unfold Inv; simpl.
  - (* createNewSession *)
    set (entry := (bt, generateSessionId e, greetingTurn bt (ce_timestamp e))).
    assert (Hincl : incl (seeded s) (entry :: seeded s)) by apply incl_tl, incl_refl.
    split.
    + intros bt' x Hx.
      assert (Hcases : In x (get bt' (chatSessions (store s)))
                       \/ (bt' = bt /\ x = newSession snap bt e)).
      { destruct bt, bt'; simpl in Hx; try (left; exact Hx).
        all: apply in_app_or in Hx; destruct Hx as [Hx|[<-|[]]];
          [left; exact Hx | right; split; reflexivity]. }
      destruct Hcases as [Hold|[-> ->]].
      * eapply store_ok_mono; [exact Hincl| |exact Hstore|exact Hold]. lia.
      * split; simpl; [|lia].
        exists (ce_timestamp e), []. split; [reflexivity|now left].
    + eapply Forall_impl; [|exact Hfly]. intros p. now apply pending_ok_mono.
  - (* handleSubmit *)
    destruct (handleSubmit_inv _ _ _ _ _ _ Hsub) as [cur' (_ & Hcur' & ->)].
    rewrite Hcur in Hcur'. injection Hcur' as <-.
    cbn [sub_store sub_messages].
    destruct (getCurrentSession_In _ _ _ Hcur) as [Hin _].
    destruct (Hstore _ _ Hin) as [Hg _].
    split.
    + apply store_ok_updateSession; [|apply greeted_app, Hg|lia].
      eapply store_ok_mono; [apply incl_refl| |exact Hstore]. lia.
    + constructor; [|exact Hfly].
      exists (messages cur ++ [userTurn (inputValue ui) (su_user e)]),
             (loadingTurn cfg (su_loading e)).
      simpl. split; [now rewrite <- app_assoc | apply greeted_app, Hg].
  - (* sendMessage settles *)
    rewrite Hp in Hfly. apply Forall_app in Hfly. destruct Hfly as [Hb Hpa].
    inversion Hpa as [|? ? Hpok Ha]; subst.
    destruct Hpok as (body & final & Hmsgs & Hg).
    split; [|apply Forall_app; split; assumption].
    assert (Hrepl : forall text,
               greeted (seeded s) (botType (p_cfg p)) (id (p_session p))
                       (replaceLast (p_messages p) text (st_timestamp e))).
    { intros text. unfold replaceLast. rewrite Hmsgs, removelast_last.
      apply greeted_app, Hg. }
    destruct o as [response|err]; cbn [settle fst].
    all: apply store_ok_updateSession; [|apply Hrepl|lia].
    all: eapply store_ok_mono; [apply incl_refl| |exact Hstore]; lia.
  - (* switchToSession *)
    split; [exact Hstore | exact Hfly].
  - (* deleteSession *)
    split; [|exact Hfly].
    intros bt' x Hx. apply Hstore.
    destruct bt, bt'; simpl in Hx; try exact Hx.
    all: apply filter_In in Hx; tauto.
  - (* getSessions *)
    split; [|exact Hfly].
    intros bt' x Hx. apply Hstore.
    destruct bt, bt'; simpl in Hx; try exact Hx.
    all: eapply Permutation_in;
      [apply Permutation_sym, (Array_sort_perm updatedAt) | exact Hx].
Qed.

Lemma reachable_Inv (s : Sys) : reachable s -> Inv s.
Proof.
  induction 1 as [t0|s s' _ IH Hstep].
  - split; [intros [] x []|constructor].
  - eapply step_preserves_Inv; eassumption.
Qed.

(** ** updateSession *)

Lemma Forall2_map_self {A} (R : A -> A -> Prop) (f : A -> A) (l : list A) :
  (forall x, In x l -> R x (f x)) -> Forall2 R l (map f l).
Proof.
  induction l as [|a l IH]; intros H; simpl; constructor.
  - apply H. now left.
  - apply IH. intros x Hx. apply H. now right.
Qed.

Lemma find_map_same {A} (p : A -> bool) (f : A -> A) (l : list A) :
  (forall x, p (f x) = p x) -> find p (map f l) = option_map f (find p l).
Proof.
  intros Hp. induction l as [|a l IH]; [reflexivity|].
  simpl. rewrite Hp. destruct (p a); [reflexivity|exact IH].
Qed.

Lemma map_id_on {A} (f : A -> A) (l : list A) :
  (forall x, In x l -> f x = x) -> map f l = l.
Proof.
  induction l as [|a l IH]; intros H; [reflexivity|].
  simpl. rewrite H by now left. f_equal. apply IH. intros x Hx. apply H. now right.
Qed.

(** C3. In every reachable configuration, with a clock that does not run
    backwards: [updateMessages(category, sessionId, newMessages)] replaces
    the messages of the sessions of that category whose id is [sessionId] by
    exactly [newMessages], sets their [updatedAt] to the time of the update,
    which is at least the prior [updatedAt], and leaves every other session
    of the category, the other category and the current pointers as they
    were; a following [getCurrentSession] returns the session with the new
    list when it is the current one.  If no session of the category has that
    id the store is unchanged.  (The embedded function is total: no message
    list makes it fail.) *)
Theorem updateSession_spec :
  forall (s : Sys),
    reachable s ->
    forall (bt : BotType) (sessionId : string) (newMessages : list Turn) (now : Z),
      clock s <= now ->
      let st := store s in
      let st' := updateSession bt sessionId newMessages now st in
      Forall2 (updated_from sessionId newMessages now)
              (get bt (chatSessions st)) (get bt (chatSessions st'))
      /\ (forall bt', bt' <> bt ->
            get bt' (chatSessions st') = get bt' (chatSessions st))
      /\ currentSessionId st' = currentSessionId st
      /\ (forall cur,
            getCurrentSession st bt = Some cur -> id cur = sessionId ->
            exists cur',
              getCurrentSession st' bt = Some cur'
              /\ id cur' = id cur
              /\ messages cur' = newMessages
              /\ updatedAt cur <= updatedAt cur')
      /\ ((forall x, In x (get bt (chatSessions st)) -> id x <> sessionId) ->
          st' = st).
Proof.
  intros s Hreach bt sessionId newMessages now Hnow st st'.
  destruct (reachable_Inv s Hreach) as [Hstore _]. fold st in Hstore.
  set (f := fun session : Session =>
              if (id session =? sessionId)%string
              then mkSession (id session) (generateSessionTitle newMessages)
                             newMessages (createdAt session) now
              else session).
  assert (Hsess : get bt (chatSessions st') = map f (get bt (chatSessions st)))
    by apply updateSession_sessions.
  assert (Hold : forall x, In x (get bt (chatSessions st)) -> updatedAt x <= now).
  { intros x Hx. destruct (Hstore bt x Hx) as [_ Hu]. lia. }
  split.
  { rewrite Hsess. apply Forall2_map_self. intros x Hx.
    unfold updated_from, f. destruct (id x =? sessionId)%string; [|reflexivity].
    simpl. repeat split. apply Hold, Hx. }
  split.
  { intros bt' Hbt'. subst st'. unfold updateSession. simpl.
    apply get_set_other, Hbt'. }
  split; [reflexivity|].
  split.
  { intros cur Hcur Hid.
    destruct (getCurrentSession_In _ _ _ Hcur) as [Hin Hptr].
    exists (f cur). unfold getCurrentSession in *.
    change (currentSessionId st') with (currentSessionId st).
    rewrite Hptr in *. destruct (id cur =? "")%string; [discriminate|].
    rewrite Hsess, find_map_same.
    - rewrite Hcur. split; [reflexivity|].
      unfold f. rewrite Hid, String.eqb_refl. simpl.
      repeat split. apply Hold, Hin.
    - intros x. unfold f. destruct (id x =? sessionId)%string; reflexivity. }
  intros Hnone. subst st'. unfold updateSession.
  rewrite map_id_on.
  - rewrite set_get_same. destruct st; reflexivity.
  - intros x Hx. destruct (String.eqb_spec (id x) sessionId) as [E|E];
      [exfalso; apply (Hnone x Hx E) | reflexivity].
Qed.

Lemma reachable_sys1 : reachable sys1.
Proof.
  apply (reach_step (initialSys 0)); [apply reach_init|].
  apply (step_create (initialSys 0) initialStore legal env0); simpl; lia.
Defined.

Lemma reachable_sys2 : reachable sys2.
Proof.
  apply (reach_step sys1); [apply reachable_sys1|].
  apply (step_submit sys1 Legalbot askView askEnv asked legalSession);
    try (simpl; lia); try reflexivity.
  now left.
Defined.

Lemma reachable_sys3 : reachable sys3.
Proof.
  apply (reach_step sys2); [apply reachable_sys2|].
  apply (step_settle sys2 (mkPending Legalbot legalSession (sub_messages asked))
                     [] [] (Rejected "network") failEnv (sub_view asked));
    try reflexivity; simpl; lia.
Defined.

Lemma updateSession_spec_witness :
  let st := store sys3 in
  let st' := updateSession legal (id legalSession) [greetingTurn legal 1000] 7000 st in
  Forall2 (updated_from (id legalSession) [greetingTurn legal 1000] 7000)
          (get legal (chatSessions st)) (get legal (chatSessions st'))
  /\ (forall bt', bt' <> legal ->
        get bt' (chatSessions st') = get bt' (chatSessions st))
  /\ currentSessionId st' = currentSessionId st
  /\ (forall cur,
        getCurrentSession st legal = Some cur -> id cur = id legalSession ->
        exists cur',
          getCurrentSession st' legal = Some cur'
          /\ id cur' = id cur
          /\ messages cur' = [greetingTurn legal 1000]
          /\ updatedAt cur <= updatedAt cur')
  /\ ((forall x, In x (get legal (chatSessions st)) -> id x <> id legalSession) ->
      st' = st).
Proof.
  apply (updateSession_spec sys3 reachable_sys3 legal (id legalSession)
                            [greetingTurn legal 1000] 7000).
  simpl. lia.
Defined.

(** ** The greeting is never lost *)

(** C9. In every configuration reachable from the empty store by the events
    of the page (sessions created with their greeting, submits and settled
    calls of the two screens going through [updateMessages], switches,
    deletions, listings), every stored session has a non-empty message list
    whose first entry is a [system] turn with the greeting text of its
    category, and that entry is a greeting seeded by a [createSession] of
    that category for that session id. *)
Theorem greeting_invariant :
  forall (s : Sys),
    reachable s ->
    forall (bt : BotType) (x : Session),
      In x (get bt (chatSessions (store s))) ->
      messages x <> []
      /\ exists g rest,
           messages x = g :: rest
           /\ key g = system
           /\ content (payload g) = greetingContent bt
           /\ (exists t, g = greetingTurn bt t)
           /\ In (bt, id x, g) (seeded s).
Proof.
  intros s Hreach bt x Hx.
  destruct (reachable_Inv s Hreach) as [Hstore _].
  destruct (Hstore bt x Hx) as [(t & rest & Hms & Hlog) _].
  split; [rewrite Hms; discriminate|].
  exists (greetingTurn bt t), rest.
  repeat split; try assumption. now exists t.
Qed.

Lemma greeting_invariant_witness :
  messages failedSession <> []
  /\ exists g rest,
       messages failedSession = g :: rest
       /\ key g = system
       /\ content (payload g) = greetingContent legal
       /\ (exists t, g = greetingTurn legal t)
       /\ In (legal, id failedSession, g) (seeded sys3).
Proof.
  apply (greeting_invariant sys3 reachable_sys3 legal failedSession).
  vm_compute. left. reflexivity.
Defined.

(** ** Session ids *)

Lemma string_of_uint_no_underscore (d : Decimal.uint) :
  string_mem "_" (NilEmpty.string_of_uint d) = false.
Proof. induction d; simpl; auto. Qed.

Lemma string_of_Z_no_underscore (z : Z) : string_mem "_" (string_of_Z z) = false.
Proof.
  unfold string_of_Z, NilZero.string_of_int, NilZero.string_of_uint.
  destruct (Z.to_int z) as [d|d]; destruct d; simpl; auto;
    apply string_of_uint_no_underscore.
Qed.

Lemma string_of_Z_inj (z1 z2 : Z) : string_of_Z z1 = string_of_Z z2 -> z1 = z2.
Proof.
  unfold string_of_Z. intros H.
  assert (Hnn : forall z, Z.to_int z <> Decimal.Pos Decimal.Nil
                          /\ Z.to_int z <> Decimal.Neg Decimal.Nil).
  { intros [|p|p]; simpl; split; try discriminate; intros [= E];
      exact (DecimalPos.Unsigned.to_uint_nonnil p E). }
  apply (f_equal NilZero.int_of_string) in H.
  rewrite !NilZero.isi in H by apply Hnn.
  injection H as H. rewrite <- (DecimalZ.of_to z1), <- (DecimalZ.of_to z2).
  now rewrite H.
Qed.

Lemma split_at_first (c : ascii) (s1 s2 r1 r2 : string) :
  string_mem c s1 = false -> string_mem c s2 = false ->
  (s1 ++ String c r1)%string = (s2 ++ String c r2)%string ->
  s1 = s2 /\ r1 = r2.
Proof.
  revert s2. induction s1 as [|a s1 IH]; intros [|b s2] H1 H2 E; simpl in *.
  - injection E as E. now split.
  - injection E as Eb E. subst b. rewrite Ascii.eqb_refl in H2. discriminate.
  - injection E as Ea E. subst a. rewrite Ascii.eqb_refl in H1. discriminate.
  - injection E as Eab E. subst b.
    apply orb_false_iff in H1. apply orb_false_iff in H2.
    destruct (IH s2) as [-> ->]; tauto.
Qed.

(** X1. The id of a session determines the clock reading and the random
    suffix it was built from: two calls of [generateSessionId] return the same
    id only if both their [Date.now()] and their random suffix agree. *)
Theorem generateSessionId_inj :
  forall e1 e2 : CreateEnv,
    generateSessionId e1 = generateSessionId e2 ->
    ce_now e1 = ce_now e2 /\ ce_random e1 = ce_random e2.
Proof.
  intros e1 e2 H. unfold generateSessionId in H.
  simpl in H. injection H as H.
  destruct (split_at_first "_" (string_of_Z (ce_now e1)) (string_of_Z (ce_now e2))
                           (ce_random e1) (ce_random e2)) as [Hz Hr];
    try apply string_of_Z_no_underscore; [exact H|].
  split; [apply string_of_Z_inj, Hz | exact Hr].
Qed.

Lemma generateSessionId_inj_witness :
  ce_now env0 = ce_now (mkCreateEnv 1000 "k3j9x0q2a" 7 8 9)
  /\ ce_random env0 = ce_random (mkCreateEnv 1000 "k3j9x0q2a" 7 8 9).
Proof.
  apply (generateSessionId_inj env0 (mkCreateEnv 1000 "k3j9x0q2a" 7 8 9)).
  reflexivity.
Defined.

(** ** Time and date labels *)

Lemma slice_last2_two_digits (n : nat) :
  (n < 100)%nat -> slice_last2 ("0" ++ string_of_nat n) = two_digits n.
Proof.
  intros H.
  do 100 (destruct n as [|n]; [reflexivity|]).
  lia.
Qed.

Lemma two_digits_inj (n n' : nat) :
  (n < 100)%nat -> (n' < 100)%nat -> two_digits n = two_digits n' -> n = n'.
Proof.
  intros Hn Hn' E. unfold two_digits in E.
  assert (Hd : forall k, (k < 100)%nat ->
                 nat_of_ascii (ascii_of_nat (48 + k / 10)) = (48 + k / 10)%nat
                 /\ nat_of_ascii (ascii_of_nat (48 + k mod 10)) = (48 + k mod 10)%nat).
  { intros k Hk. split; apply nat_ascii_embedding.
    - assert (k / 10 < 10)%nat by (apply Nat.Div0.div_lt_upper_bound; lia). lia.
    - assert (k mod 10 < 10)%nat by (apply Nat.mod_upper_bound; lia). lia. }
  (* the two digits give back quotient and remainder *)
  pose proof (f_equal (fun s => match s with
                                | String a _ => nat_of_ascii a
                                | EmptyString => O
                                end) E) as Ht.
  pose proof (f_equal (fun s => match s with
                                | String _ (String a _) => nat_of_ascii a
                                | _ => O
                                end) E) as Hu.
  cbv beta iota in Ht, Hu.
  destruct (Hd n Hn) as [A B]. destruct (Hd n' Hn') as [A' B'].
  rewrite A, A' in Ht. rewrite B, B' in Hu.
  rewrite (Nat.div_mod_eq n 10), (Nat.div_mod_eq n' 10). lia.
Qed.

(** X11. For the hours and minutes of a date (below 24 and below 60),
    [formatTime] is the two-digit hour, a colon and the two-digit minute:
    five characters, zero-padded, and different times give different
    labels. *)
Theorem formatTime_spec :
  forall h m : nat,
    (h < 24)%nat -> (m < 60)%nat ->
    formatTime h m = (two_digits h ++ ":" ++ two_digits m)%string
    /\ String.length (formatTime h m) = 5%nat
    /\ (forall h' m', (h' < 24)%nat -> (m' < 60)%nat ->
          formatTime h m = formatTime h' m' -> h = h' /\ m = m').
Proof.
  intros h m Hh Hm.
  assert (Hfmt : forall a b, (a < 24)%nat -> (b < 60)%nat ->
                   formatTime a b = (two_digits a ++ ":" ++ two_digits b)%string).
  { intros a b Ha Hb. unfold formatTime.
    rewrite !slice_last2_two_digits by lia. reflexivity. }
  split; [apply Hfmt; assumption|].
  split; [rewrite Hfmt by assumption; reflexivity|].
  intros h' m' Hh' Hm' E. rewrite !Hfmt in E by assumption.
  pose proof (f_equal (substring 0 2) E) as Eh.
  pose proof (f_equal (substring 3 2) E) as Em.
  change (two_digits h = two_digits h') in Eh.
  change (two_digits m = two_digits m') in Em.
  split; apply two_digits_inj; try lia; assumption.
Qed.

Lemma formatTime_spec_witness :
  formatTime 9 5 = (two_digits 9 ++ ":" ++ two_digits 5)%string
  /\ String.length (formatTime 9 5) = 5%nat
  /\ (forall h' m', (h' < 24)%nat -> (m' < 60)%nat ->
        formatTime 9 5 = formatTime h' m' -> 9%nat = h' /\ 5%nat = m').
Proof. apply (formatTime_spec 9 5); lia. Defined.

Example formatTime_morning : formatTime 9 5 = "09:05".
Proof. reflexivity. Qed.

Lemma Math_ceil_div_spec (a b : Z) :
  0 < b ->
  (Math_ceil_div a b - 1) * b < a <= Math_ceil_div a b * b.
Proof.
  intros Hb. unfold Math_ceil_div.
  pose proof (Z.div_mod (- a) b) as Hdm.
  pose proof (Z.mod_pos_bound (- a) b Hb) as Hmod.
  specialize (Hdm ltac:(lia)). nia.
Qed.

Lemma Math_ceil_div_unique (a b q : Z) :
  0 < b -> (q - 1) * b < a <= q * b -> Math_ceil_div a b = q.
Proof.
  intros Hb Hq. pose proof (Math_ceil_div_spec a b Hb) as Hc. nia.
Qed.

(** X12. The date label of the history panel depends on the distance [d]
    between the two instants, whichever comes first.  It is ["Today"] when
    [0 < d <= 24h] (not: on the same calendar day), ["Yesterday"] when
    [24h < d <= 48h], ["k days ago"] with [k] from 2 to 6 when [d] is more
    than [k] and at most [k + 1] days, and the locale's date beyond 7 days;
    ["1 days ago"] and ["7 days ago"] never appear.  When the two instants
    are the same millisecond the label is ["-1 days ago"]. *)
Theorem formatDate_spec :
  forall (toLocaleDateString : Z -> string) (now date : Z),
    let d := Z.abs (now - date) in
    let label := formatDate toLocaleDateString now date in
    (d = 0 -> label = "-1 days ago")
    /\ (0 < d <= msPerDay -> label = "Today")
    /\ (msPerDay < d <= 2 * msPerDay -> label = "Yesterday")
    /\ (forall k, 2 <= k <= 6 ->
          k * msPerDay < d <= (k + 1) * msPerDay ->
          label = (string_of_Z k ++ " days ago")%string)
    /\ (7 * msPerDay < d -> label = toLocaleDateString date)
    /\ formatDate toLocaleDateString date now
       = (if 7 * msPerDay <? d then toLocaleDateString now else label).
Proof.
  intros loc now date d label.
  assert (Hday : 0 < msPerDay) by reflexivity.
  pose proof (Math_ceil_div_spec d msPerDay Hday) as Hc.
  assert (Hval : forall q, (q - 1) * msPerDay < d <= q * msPerDay ->
                   Math_ceil_div d msPerDay = q)
    by (intros q; apply Math_ceil_div_unique, Hday).
  subst label. unfold formatDate. fold d.
  change msPerDay with 86400000 in *.
  split. { intros H0. rewrite (Hval 0) by lia. reflexivity. }
  split. { intros H1. rewrite (Hval 1) by lia. reflexivity. }
  split. { intros H2. rewrite (Hval 2) by lia. reflexivity. }
  split.
  { intros k Hk Hd. rewrite (Hval (k + 1)) by lia.
    destruct (Z.eqb_spec (k + 1) 1); [lia|].
    destruct (Z.eqb_spec (k + 1) 2); [lia|].
    destruct (Z.leb_spec (k + 1) 7); [|lia].
    replace (k + 1 - 1) with k by lia. reflexivity. }
  split.
  { intros H7.
    destruct (Z.eqb_spec (Math_ceil_div d 86400000) 1); [lia|].
    destruct (Z.eqb_spec (Math_ceil_div d 86400000) 2); [lia|].
    destruct (Z.leb_spec (Math_ceil_div d 86400000) 7); [lia|reflexivity]. }
  replace (Z.abs (date - now)) with d by (subst d; lia).
  destruct (Z.ltb_spec (7 * 86400000) d) as [H7|H7].
  - destruct (Z.eqb_spec (Math_ceil_div d 86400000) 1); [lia|].
    destruct (Z.eqb_spec (Math_ceil_div d 86400000) 2); [lia|].
    destruct (Z.leb_spec (Math_ceil_div d 86400000) 7); [lia|reflexivity].
  - destruct (Z.eqb_spec (Math_ceil_div d 86400000) 1); [reflexivity|].
    destruct (Z.eqb_spec (Math_ceil_div d 86400000) 2); [reflexivity|].
    destruct (Z.leb_spec (Math_ceil_div d 86400000) 7); [reflexivity|lia].
Qed.

Example formatDate_same_instant :
  formatDate (fun _ => "11/3/2026") 5000 5000 = "-1 days ago".
Proof. reflexivity. Qed.

(** ** How the store operations compose *)

Lemma Store_ext (a b : Store) :
  (forall bt, get bt (chatSessions a) = get bt (chatSessions b)) ->
  (forall bt, get bt (currentSessionId a) = get bt (currentSessionId b)) ->
  a = b.
Proof.
  destruct a as [[a1 a2] [a3 a4]], b as [[b1 b2] [b3 b4]]. intros Hs Hc.
  pose proof (Hs agri) as H1. pose proof (Hs legal) as H2.
  pose proof (Hc agri) as H3. pose proof (Hc legal) as H4.
  simpl in *. congruence.
Qed.

Lemma BotType_eq_dec (a b : BotType) : {a = b} + {a <> b}.
Proof. decide equality. Qed.

Lemma find_id_none (sid : string) (l : list Session) :
  (forall x, In x l -> id x <> sid) ->
  find (fun session => (id session =? sid)%string) l = None.
Proof.
  induction l as [|a l IH]; intros H; [reflexivity|].
  simpl. destruct (String.eqb_spec (id a) sid) as [E|E].
  - exfalso. apply (H a); [now left | exact E].
  - apply IH. intros x Hx. apply H. now right.
Qed.

Lemma updateSession_absent (bt : BotType) (sid : string) (ms : list Turn)
    (now : Z) (prev : Store) :
  (forall x, In x (get bt (chatSessions prev)) -> id x <> sid) ->
  updateSession bt sid ms now prev = prev.
Proof.
  intros Hnone. unfold updateSession. rewrite map_id_on.
  - rewrite set_get_same. destruct prev; reflexivity.
  - intros x Hx. destruct (String.eqb_spec (id x) sid) as [E|E];
      [exfalso; apply (Hnone x Hx E) | reflexivity].
Qed.

Lemma updateSession_other (bt bt' : BotType) (sid : string) (ms : list Turn)
    (now : Z) (prev : Store) :
  bt' <> bt ->
  get bt' (chatSessions (updateSession bt sid ms now prev)) = get bt' (chatSessions prev).
Proof. intros H. unfold updateSession. simpl. apply get_set_other, H. Qed.

Lemma getCurrentSession_updateSession (st : Store) (bt : BotType)
    (cur : Session) (ms : list Turn) (now : Z) :
  getCurrentSession st bt = Some cur ->
  getCurrentSession (updateSession bt (id cur) ms now st) bt =
  Some (mkSession (id cur) (generateSessionTitle ms) ms (createdAt cur) now).
Proof.
  intros Hcur. destruct (getCurrentSession_In _ _ _ Hcur) as [_ Hptr].
  unfold getCurrentSession in *.
  change (currentSessionId (updateSession bt (id cur) ms now st))
    with (currentSessionId st).
  rewrite Hptr in *. destruct (id cur =? "")%string; [discriminate|].
  rewrite updateSession_sessions, find_map_same.
  - rewrite Hcur. simpl. now rewrite String.eqb_refl.
  - intros x. destruct (id x =? id cur)%string eqn:E; simpl; exact E.
Qed.

(** X2. [switchToSession] does not check its argument.  It sets the pointer
    of the category and nothing else.  When a session of the category has
    that (non-empty) id, [getCurrentSession] then returns the first such
    session; when none has, [getCurrentSession] returns nothing, and the
    mount effect of the screen then opens a new session, which replaces the
    dangling pointer. *)
Theorem switchToSession_spec :
  forall (st : Store) (bt : BotType) (sessionId : string),
    let st' := switchToSession bt sessionId st in
    chatSessions st' = chatSessions st
    /\ get bt (currentSessionId st') = Some sessionId
    /\ (forall bt', bt' <> bt ->
          get bt' (currentSessionId st') = get bt' (currentSessionId st))
    /\ (forall x, In x (get bt (chatSessions st)) -> id x = sessionId ->
          sessionId <> "" ->
          exists cur, getCurrentSession st' bt = Some cur
                      /\ In cur (get bt (chatSessions st)) /\ id cur = sessionId)
    /\ ((forall x, In x (get bt (chatSessions st)) -> id x <> sessionId) ->
          getCurrentSession st' bt = None
          /\ forall cfg e, botType cfg = bt ->
               let st'' := initialize cfg st' e st' in
               get bt (chatSessions st'') =
                 get bt (chatSessions st) ++ [newSession st bt e]
               /\ get bt (currentSessionId st'') = Some (generateSessionId e)).
Proof.
  intros st bt sessionId st'.
  assert (Hptr : get bt (currentSessionId st') = Some sessionId)
    by (subst st'; simpl; apply get_set_same).
  split; [reflexivity|]. split; [exact Hptr|].
  split; [intros bt' Hbt'; subst st'; simpl; apply get_set_other, Hbt'|].
  split.
  { intros x Hx Hid Hne. unfold getCurrentSession. rewrite Hptr.
    destruct (String.eqb_spec sessionId "") as [E|_]; [contradiction|].
    change (chatSessions st') with (chatSessions st).
    destruct (find (fun session => (id session =? sessionId)%string)
                   (get bt (chatSessions st))) as [cur|] eqn:F.
    - exists cur. apply find_some in F. destruct F as [Hin E].
      apply String.eqb_eq in E. repeat split; assumption.
    - exfalso. apply (find_none _ _ F) in Hx.
      rewrite Hid, String.eqb_refl in Hx. discriminate. }
  intros Hnone.
  assert (Hcur : getCurrentSession st' bt = None).
  { unfold getCurrentSession. rewrite Hptr.
    destruct (sessionId =? "")%string; [reflexivity|].
    apply find_id_none, Hnone. }
  split; [exact Hcur|].
  intros cfg e <- st''. subst st''. unfold initialize. rewrite Hcur.
  simpl. rewrite !get_set_same. split; reflexivity.
Qed.

(** X5. Deleting the same session twice is the same as deleting it once:
    the second [deleteSession] changes neither the collection nor the
    pointer the first one chose. *)
Theorem removeSession_idempotent :
  forall (st : Store) (bt : BotType) (sessionId : string),
    removeSession bt sessionId (removeSession bt sessionId st)
    = removeSession bt sessionId st.
Proof.
  intros st bt sessionId.
  assert (Hs1 : get bt (chatSessions (removeSession bt sessionId st)) =
                filter (other_than sessionId) (get bt (chatSessions st)))
    by apply removeSession_sessions.
  assert (Hp1 : get bt (currentSessionId (removeSession bt sessionId st))
                <> Some sessionId).
  { destruct (get bt (currentSessionId st)) as [cur|] eqn:Hcur.
    - destruct (String.eqb_spec cur sessionId) as [->|Hne].
      + rewrite (removeSession_current _ _ _ Hcur).
        destruct (last_elem _) as [s|] eqn:L; simpl; [|discriminate].
        apply last_elem_In, filter_In in L. destruct L as [_ L].
        apply other_than_true in L. congruence.
      + unfold removeSession, deleteSession. simpl. rewrite Hcur.
        rewrite (proj2 (String.eqb_neq _ _) Hne), Hcur. congruence.
    - unfold removeSession, deleteSession. simpl. rewrite Hcur, Hcur.
      discriminate. }
  remember (removeSession bt sessionId st) as st1 eqn:E. clear E.
  apply Store_ext; intros bt'.
  - destruct (BotType_eq_dec bt' bt) as [->|Hne].
    + rewrite removeSession_sessions, Hs1.
      apply filter_other_than_all. intros x Hx. apply filter_In in Hx.
      apply other_than_true, Hx.
    + unfold removeSession, deleteSession. simpl. apply get_set_other, Hne.
  - unfold removeSession, deleteSession. simpl.
    destruct (get bt (currentSessionId st1)) as [cur|] eqn:Hcur; [|reflexivity].
    destruct (String.eqb_spec cur sessionId) as [->|_]; [|reflexivity].
    contradiction Hp1; reflexivity.
Qed.

(** X6. When the current session of a screen is deleted and the category
    holds no other session, the screen is left without a current session;
    its mount effect then creates one, titled ["Chat 1"], which is the only
    session of the category and the current one. *)
Theorem delete_last_then_initialize :
  forall (st : Store) (cfg : BotConfig) (sessionId : string) (e : CreateEnv),
    get (botType cfg) (currentSessionId st) = Some sessionId ->
    (forall x, In x (get (botType cfg) (chatSessions st)) -> id x = sessionId) ->
    let st1 := removeSession (botType cfg) sessionId st in
    let st2 := initialize cfg st1 e st1 in
    get (botType cfg) (chatSessions st1) = []
    /\ getCurrentSession st1 (botType cfg) = None
    /\ exists fresh,
         get (botType cfg) (chatSessions st2) = [fresh]
         /\ getCurrentSession st2 (botType cfg) = Some fresh
         /\ id fresh = generateSessionId e
         /\ title fresh = "Chat 1"
         /\ messages fresh = [greetingTurn (botType cfg) (ce_timestamp e)].
Proof.
  intros st cfg sessionId e Hcur Hall st1 st2.
  assert (Hempty : get (botType cfg) (chatSessions st1) = []).
  { unfold st1. rewrite removeSession_sessions.
    induction (get (botType cfg) (chatSessions st)) as [|a l IH]; [reflexivity|].
    simpl. unfold other_than at 1.
    rewrite (Hall a) by now left. rewrite String.eqb_refl. simpl.
    apply IH. intros x Hx. apply Hall. now right. }
  assert (Hnone : getCurrentSession st1 (botType cfg) = None).
  { unfold getCurrentSession. rewrite Hempty.
    destruct (get (botType cfg) (currentSessionId st1)) as [c|]; [|reflexivity].
    destruct (c =? "")%string; reflexivity. }
  split; [exact Hempty|]. split; [exact Hnone|].
  exists (newSession st1 (botType cfg) e).
  unfold st2, initialize. rewrite Hnone.
  assert (Hs2 : get (botType cfg)
                    (chatSessions (snd (createNewSession st1 (botType cfg) e st1)))
                = [newSession st1 (botType cfg) e]).
  { unfold createNewSession. cbn [snd chatSessions].
    rewrite get_set_same, Hempty. reflexivity. }
  split; [exact Hs2|].
  split.
  { unfold getCurrentSession. rewrite Hs2.
    unfold createNewSession. cbn [snd currentSessionId].
    rewrite get_set_same.
    rewrite generateSessionId_not_empty. cbn [find newSession id].
    now rewrite String.eqb_refl. }
  split; [reflexivity|].
  split; [|reflexivity].
  unfold newSession. cbn [title]. rewrite Hempty. reflexivity.
Qed.

Lemma delete_last_then_initialize_witness :
  let st1 := removeSession legal (id legalSession) legalStore in
  let st2 := initialize Legalbot st1 env1 st1 in
  get legal (chatSessions st1) = []
  /\ getCurrentSession st1 legal = None
  /\ exists fresh,
       get legal (chatSessions st2) = [fresh]
       /\ getCurrentSession st2 legal = Some fresh
       /\ id fresh = generateSessionId env1
       /\ title fresh = "Chat 1"
       /\ messages fresh = [greetingTurn legal (ce_timestamp env1)].
Proof.
  apply (delete_last_then_initialize legalStore Legalbot (id legalSession) env1).
  - reflexivity.
  - intros x Hx. vm_compute in Hx. destruct Hx as [<-|[]]. reflexivity.
Defined.

(** ** A whole exchange *)

Lemma replaceLast_snoc (ms : list Turn) (final : Turn) (text : string) (t : Z) :
  replaceLast (ms ++ [final]) text t
  = ms ++ [mkTurn system (mkPayload text (Some t)) None].
Proof. unfold replaceLast. now rewrite removelast_last. Qed.

Lemma settle_store (cfg : BotConfig) (cur : Session) (ms : list Turn)
    (o : ChatOutcome) (e : SettleEnv) (prev : Store) (ui : View) :
  fst (resume (sendMessage cfg cur ms) o e prev ui)
  = updateSession (botType cfg) (id cur)
      (replaceLast ms (match o with
                       | Resolved response => response
                       | Rejected _ => apologyContent cfg
                       end) (st_timestamp e))
      (st_updatedAt e) prev.
Proof. destruct o; reflexivity. Qed.

(** X9. A submit followed by the successful return of its call, nothing
    else happening in between: the session that was current at the submit is
    still the current one, with the same id and creation date; its messages
    are the former ones followed by the user's turn (the input as typed) and
    a [system] turn carrying the reply, so exactly two more; its title is
    derived from that list; the input box is empty and enabled again. *)
Theorem exchange_resolved :
  forall (cfg : BotConfig) (st : Store) (ui : View) (e : SubmitEnv)
         (r : Submitted) (reply : string) (e' : SettleEnv),
    handleSubmit cfg st ui e st = Some r ->
    let done := resume (sub_call r) (Resolved reply) e' (sub_store r) (sub_view r) in
    exists cur cur',
      getCurrentSession st (botType cfg) = Some cur
      /\ getCurrentSession (fst done) (botType cfg) = Some cur'
      /\ id cur' = id cur
      /\ createdAt cur' = createdAt cur
      /\ updatedAt cur' = st_updatedAt e'
      /\ messages cur' =
           messages cur
             ++ [userTurn (inputValue ui) (su_user e);
                 mkTurn system (mkPayload reply (Some (st_timestamp e'))) None]
      /\ List.length (messages cur') = (List.length (messages cur) + 2)%nat
      /\ title cur' = generateSessionTitle (messages cur')
      /\ inputValue (snd done) = ""
      /\ inputDisabled (snd done) = false.
Proof.
  intros cfg st ui e r reply e' H done.
  destruct (handleSubmit_inv _ _ _ _ _ _ H) as [cur (_ & Hcur & ->)].
  subst done. cbn [sub_call sub_store sub_view].
  set (asked_ms := messages cur ++ [userTurn (inputValue ui) (su_user e);
                                    loadingTurn cfg (su_loading e)]).
  set (final_ms := messages cur
                     ++ [userTurn (inputValue ui) (su_user e);
                         mkTurn system (mkPayload reply (Some (st_timestamp e'))) None]).
  assert (Hrepl : replaceLast asked_ms reply (st_timestamp e') = final_ms).
  { unfold asked_ms, final_ms.
    change [userTurn (inputValue ui) (su_user e); loadingTurn cfg (su_loading e)]
      with ([userTurn (inputValue ui) (su_user e)] ++ [loadingTurn cfg (su_loading e)]).
    rewrite app_assoc, replaceLast_snoc, <- app_assoc. reflexivity. }
  pose proof (getCurrentSession_updateSession st (botType cfg) cur asked_ms
                (su_updatedAt e) Hcur) as H1.
  pose proof (getCurrentSession_updateSession _ (botType cfg) _ final_ms
                (st_updatedAt e') H1) as H2.
  cbn [id createdAt] in H2.
  exists cur. eexists. split; [exact Hcur|].
  split.
  { rewrite settle_store. rewrite Hrepl. exact H2. }
  cbn [id createdAt updatedAt messages title].
  repeat split.
  unfold final_ms. rewrite !length_app. reflexivity.
Qed.

Lemma exchange_resolved_witness :
  let done := resume (sub_call asked) (Resolved "Not without notice.")
                     failEnv (sub_store asked) (sub_view asked) in
  exists cur cur',
    getCurrentSession legalStore (botType Legalbot) = Some cur
    /\ getCurrentSession (fst done) (botType Legalbot) = Some cur'
    /\ id cur' = id cur
    /\ createdAt cur' = createdAt cur
    /\ updatedAt cur' = st_updatedAt failEnv
    /\ messages cur' =
         messages cur
           ++ [userTurn (inputValue askView) (su_user askEnv);
               mkTurn system
                 (mkPayload "Not without notice." (Some (st_timestamp failEnv))) None]
    /\ List.length (messages cur') = (List.length (messages cur) + 2)%nat
    /\ title cur' = generateSessionTitle (messages cur')
    /\ inputValue (snd done) = ""
    /\ inputDisabled (snd done) = false.
Proof.
  apply (exchange_resolved Legalbot legalStore askView askEnv asked
                           "Not without notice." failEnv).
  reflexivity.
Defined.

(** X10. A reply, or a failure, that comes back after its session was
    deleted is dropped: the store stays exactly as the deletion left it (the
    session is not brought back), and the loading flag is cleared all the
    same.  More generally the store is unchanged whenever no session of the
    category carries the id of the session the call was made for. *)
Theorem settle_after_delete :
  forall (cfg : BotConfig) (cur : Session) (ms : list Turn) (o : ChatOutcome)
         (e : SettleEnv) (ui : View) (st : Store),
    (forall prev,
        (forall x, In x (get (botType cfg) (chatSessions prev)) -> id x <> id cur) ->
        fst (resume (sendMessage cfg cur ms) o e prev ui) = prev)
    /\ (let gone := removeSession (botType cfg) (id cur) st in
        resume (sendMessage cfg cur ms) o e gone ui
        = (gone, mkView (inputValue ui) false (showHistory ui))).
Proof.
  intros cfg cur ms o e ui st.
  assert (Hgen : forall prev,
             (forall x, In x (get (botType cfg) (chatSessions prev)) -> id x <> id cur) ->
             fst (resume (sendMessage cfg cur ms) o e prev ui) = prev).
  { intros prev Hnone. rewrite settle_store. apply updateSession_absent, Hnone. }
  split; [exact Hgen|].
  intros gone.
  assert (Hfst : fst (resume (sendMessage cfg cur ms) o e gone ui) = gone).
  { apply Hgen. intros x Hx. unfold gone in Hx.
    rewrite removeSession_sessions in Hx. apply filter_In in Hx.
    apply other_than_true, Hx. }
  destruct (resume (sendMessage cfg cur ms) o e gone ui) as [st' ui'] eqn:E.
  simpl in Hfst. subst st'. f_equal.
  apply (f_equal snd) in E. simpl in E. rewrite <- E.
  destruct o; reflexivity.
Qed.

(** X14. The two categories never interfere through the screens: a
    switch, a submit or a settled call of one category leaves the sessions
    and the current pointer of the other category untouched.  In particular
    nothing the legal screen does changes the agriculture sessions, and
    conversely. *)
Theorem screens_are_isolated :
  forall (bt' : BotType),
    (forall bt sessionId prev, bt' <> bt ->
        get bt' (chatSessions (switchToSession bt sessionId prev))
          = get bt' (chatSessions prev)
        /\ get bt' (currentSessionId (switchToSession bt sessionId prev))
          = get bt' (currentSessionId prev))
    /\ (forall cfg snap ui e prev r, bt' <> botType cfg ->
          handleSubmit cfg snap ui e prev = Some r ->
          get bt' (chatSessions (sub_store r)) = get bt' (chatSessions prev)
          /\ get bt' (currentSessionId (sub_store r)) = get bt' (currentSessionId prev))
    /\ (forall cfg cur ms o e prev ui, bt' <> botType cfg ->
          let done := resume (sendMessage cfg cur ms) o e prev ui in
          get bt' (chatSessions (fst done)) = get bt' (chatSessions prev)
          /\ get bt' (currentSessionId (fst done)) = get bt' (currentSessionId prev))
    /\ botType Legalbot <> botType Agribot.
Proof.
  intros bt'. split.
  { intros bt sessionId prev Hne. split; [reflexivity|].
    simpl. apply get_set_other, Hne. }
  split.
  { intros cfg snap ui e prev r Hne H.
    destruct (handleSubmit_inv _ _ _ _ _ _ H) as [cur (_ & _ & ->)].
    cbn [sub_store]. split; [apply updateSession_other, Hne | reflexivity]. }
  split.
  { intros cfg cur ms o e prev ui Hne done. subst done. rewrite settle_store.
    split; [apply updateSession_other, Hne | reflexivity]. }
  discriminate.
Qed.

(** ** The shape of the stored sessions *)

Lemma exchanges_snoc (ex : list Turn) (u a : Turn) :
  exchanges ex -> stamped user u -> blank (content (payload u)) = false ->
  stamped system a -> exchanges (ex ++ [u; a]).
Proof.
  intros Hex Hu Hb Ha. induction Hex as [|u0 a0 rest Hu0 Hb0 Ha0 _ IH]; simpl.
  - constructor; try assumption. constructor.
  - constructor; assumption.
Qed.

Lemma exchanges_even (ex : list Turn) :
  exchanges ex -> exists n, List.length ex = (2 * n)%nat.
Proof.
  induction 1 as [|u a rest _ _ _ _ [n Hn]].
  - now exists 0%nat.
  - exists (S n). simpl. rewrite Hn. lia.
Qed.

Lemma stamped_userTurn (text : string) (t : Z) : stamped user (userTurn text t).
Proof. repeat split. discriminate. Qed.

Lemma stamped_systemTurn (text : string) (t : Z) :
  stamped system (mkTurn system (mkPayload text (Some t)) None).
Proof. repeat split. discriminate. Qed.

Lemma session_shape_mono (clk clk' : Z) (bt : BotType) (x : Session) :
  clk <= clk' -> session_shape clk bt x -> session_shape clk' bt x.
Proof.
  intros Hclk (Hm & Hid & Ht & Hc & Hu). repeat split; try assumption. lia.
Qed.

(** [updateSession] with a transcript that holds at least one exchange keeps
    the sessions in shape. *)
Lemma shape_updateSession (clk now : Z) (st : Store) (bt : BotType)
    (sid : string) (t : Z) (ex : list Turn) (u a : Turn) :
  (forall bt' x, In x (get bt' (chatSessions st)) -> session_shape clk bt' x) ->
  exchanges (ex ++ [u; a]) -> clk <= now ->
  forall bt' x,
    In x (get bt' (chatSessions
            (updateSession bt sid (greetingTurn bt t :: ex ++ [u; a]) now st))) ->
    session_shape now bt' x.
Proof.
  intros Hst Hex Hnow bt' x Hx.
  destruct (BotType_eq_dec bt' bt) as [->|Hne].
  - rewrite updateSession_sessions in Hx. apply in_map_iff in Hx.
    destruct Hx as [x0 [Hx0 Hin]]. specialize (Hst bt x0 Hin).
    destruct (id x0 =? sid)%string.
    + destruct Hst as (_ & Hid & _ & Hc & Hu). subst x.
      unfold session_shape. cbn [messages id title createdAt updatedAt].
      split; [now exists t, (ex ++ [u; a])|].
      split; [exact Hid|].
      split; [|lia].
      right. split; [|reflexivity].
      simpl. rewrite length_app. simpl. lia.
    + subst x. eapply session_shape_mono; eassumption.
  - rewrite updateSession_other in Hx by exact Hne.
    eapply session_shape_mono; [exact Hnow | apply Hst, Hx].
Qed.

Lemma step_preserves_Shape (s s' : Sys) : step s s' -> Shape s -> Shape s'.
Proof.
  intros Hstep [Hstore Hfly].
  destruct Hstep as
    [ s snap bt e H1 H2 H3 H4
    | s cfg ui e r cur Hcfg H1 H2 H3 Hcur Hsub
    | s p before after o e ui Hp H1 H2
    | s bt sessionId | s bt sessionId | s bt ]; unfold Shape; cbn [store inflight clock].
  - (* createNewSession *)
    split; [|exact Hfly].
    intros bt' x Hx.
    assert (Hcases : In x (get bt' (chatSessions (store s)))
                     \/ (bt' = bt /\ x = newSession snap bt e)).
    { destruct bt, bt'; simpl in Hx; try (left; exact Hx).
      all: apply in_app_or in Hx; destruct Hx as [Hx|[<-|[]]];
        [left; exact Hx | right; split; reflexivity]. }
    destruct Hcases as [Hold|[-> ->]].
    + eapply session_shape_mono; [|apply Hstore, Hold]. lia.
    + split; [exists (ce_timestamp e), []; split; [reflexivity|constructor]|].
      split; [now exists e|].
      split; [|simpl; lia].
      left. split; [reflexivity|].
      exists (List.length (get bt (chatSessions snap))).
      simpl. now rewrite Nat.add_1_r.
  - (* handleSubmit *)
    destruct (handleSubmit_inv _ _ _ _ _ _ Hsub) as [cur' (Hblank & Hcur' & ->)].
    rewrite Hcur in Hcur'. injection Hcur' as <-.
    cbn [sub_store sub_messages].
    destruct (getCurrentSession_In _ _ _ Hcur) as [Hin _].
    destruct (Hstore _ _ Hin) as ((t & ex & Hms & Hex) & Hid & _).
    rewrite Hms.
    assert (Hnew : exchanges (ex ++ [userTurn (inputValue ui) (su_user e);
                                     loadingTurn cfg (su_loading e)])).
    { apply exchanges_snoc; try assumption.
      - apply stamped_userTurn.
      - apply stamped_systemTurn. }
    split.
    + change ((greetingTurn (botType cfg) t :: ex)
                ++ [userTurn (inputValue ui) (su_user e);
                    loadingTurn cfg (su_loading e)])
        with (greetingTurn (botType cfg) t
                :: ex ++ [userTurn (inputValue ui) (su_user e);
                          loadingTurn cfg (su_loading e)]).
      apply (shape_updateSession (clock s)); [exact Hstore|exact Hnew|lia].
    + constructor; [|exact Hfly].
      exists t, ex, (userTurn (inputValue ui) (su_user e)),
             (loadingTurn cfg (su_loading e)).
      cbn [p_messages p_cfg p_session].
      repeat split; try assumption; discriminate.
  - (* sendMessage settles *)
    rewrite Hp in Hfly. apply Forall_app in Hfly. destruct Hfly as [Hb Hpa].
    inversion Hpa as [|? ? Hpok Ha]; subst.
    destruct Hpok as (t & ex & u & l & Hmsgs & Hex & Hu & Hblank & Hl & Hid).
    split; [|apply Forall_app; split; assumption].
    rewrite settle_store, Hmsgs.
    change (greetingTurn (botType (p_cfg p)) t :: ex ++ [u; l])
      with ((greetingTurn (botType (p_cfg p)) t :: ex) ++ [u] ++ [l]).
    rewrite app_assoc, replaceLast_snoc, <- app_assoc.
    cbn [app].
    apply (shape_updateSession (clock s)); [exact Hstore| |lia].
    apply exchanges_snoc; try assumption. apply stamped_systemTurn.
  - (* switchToSession *)
    split; [exact Hstore | exact Hfly].
  - (* deleteSession *)
    split; [|exact Hfly].
    intros bt' x Hx. apply Hstore.
    destruct bt, bt'; simpl in Hx; try exact Hx.
    all: apply filter_In in Hx; tauto.
  - (* getSessions *)
    split; [|exact Hfly].
    intros bt' x Hx. apply Hstore.
    destruct bt, bt'; simpl in Hx; try exact Hx.
    all: eapply Permutation_in;
      [apply Permutation_sym, (Array_sort_perm updatedAt) | exact Hx].
Qed.

Lemma reachable_Shape (s : Sys) : reachable s -> Shape s.
Proof.
  induction 1 as [t0|s s' _ IH Hstep].
  - split; [intros [] x []|constructor].
  - eapply step_preserves_Shape; eassumption.
Qed.

(** X7. In every configuration the page can reach, the transcript of every
    stored session is the greeting followed by question and answer pairs: a
    [user] turn, never blank, then a [system] turn (placeholder, reply or
    apology), each with its timestamp inside the payload.  So the number
    shown as "n messages" is always odd. *)
Theorem transcript_shape :
  forall (s : Sys),
    reachable s ->
    forall (bt : BotType) (x : Session),
      In x (get bt (chatSessions (store s))) ->
      exists t ex n,
        messages x = greetingTurn bt t :: ex
        /\ exchanges ex
        /\ List.length (messages x) = (2 * n + 1)%nat.
Proof.
  intros s Hreach bt x Hx.
  destruct (reachable_Shape s Hreach) as [Hstore _].
  destruct (Hstore bt x Hx) as ((t & ex & Hms & Hex) & _).
  destruct (exchanges_even ex Hex) as [n Hn].
  exists t, ex, n. repeat split; try assumption.
  rewrite Hms. simpl. rewrite Hn. lia.
Qed.

Lemma failedSession_stored : In failedSession (get legal (chatSessions (store sys3))).
Proof. vm_compute. left. reflexivity. Defined.

Lemma transcript_shape_witness :
  exists t ex n,
    messages failedSession = greetingTurn legal t :: ex
    /\ exchanges ex
    /\ List.length (messages failedSession) = (2 * n + 1)%nat.
Proof.
  exact (transcript_shape sys3 reachable_sys3 legal failedSession failedSession_stored).
Defined.

(** X8. In every reachable configuration the title of a stored session is
    either the one given at creation, ["Chat N"] with N at least 1, and then
    the session holds nothing but its greeting; or the session holds a first
    question and the title is that question, cut to 30 characters and
    ["..."] when it is longer.  Later questions never change the title. *)
Theorem title_shape :
  forall (s : Sys),
    reachable s ->
    forall (bt : BotType) (x : Session),
      In x (get bt (chatSessions (store s))) ->
      (exists t n, messages x = [greetingTurn bt t]
                   /\ title x = ("Chat " ++ string_of_nat (S n))%string)
      \/ (exists t u rest,
            messages x = greetingTurn bt t :: u :: rest
            /\ key u = user
            /\ title x = truncated (content (payload u))).
Proof.
  intros s Hreach bt x Hx.
  destruct (reachable_Shape s Hreach) as [Hstore _].
  destruct (Hstore bt x Hx) as ((t & ex & Hms & Hex) & _ & Htitle & _).
  destruct Htitle as [[Hlen [n Hn]]|[Hlen Ht]].
  - left. exists t, n. split; [|exact Hn].
    rewrite Hms in *. destruct ex; [reflexivity|discriminate Hlen].
  - right. rewrite Hms in *.
    destruct Hex as [|u a rest Hu _ _ _]; [simpl in Hlen; lia|].
    exists t, u, (a :: rest). destruct Hu as (Hk & _).
    repeat split; try assumption.
    rewrite Ht. unfold generateSessionTitle, truncated. simpl.
    unfold has_user at 1. rewrite Hk. reflexivity.
Qed.

Lemma title_shape_witness :
  (exists t n, messages failedSession = [greetingTurn legal t]
               /\ title failedSession = ("Chat " ++ string_of_nat (S n))%string)
  \/ (exists t u rest,
        messages failedSession = greetingTurn legal t :: u :: rest
        /\ key u = user
        /\ title failedSession = truncated (content (payload u))).
Proof.
  exact (title_shape sys3 reachable_sys3 legal failedSession failedSession_stored).
Defined.

Example failedSession_title :
  title failedSession = "Can a tenant be evicted withou...".
Proof. reflexivity. Qed.

(** X18. With a clock that does not run backwards, every stored session
    has [createdAt <= updatedAt], and no [updatedAt] lies after the latest
    clock reading. *)
Theorem dates_in_order :
  forall (s : Sys),
    reachable s ->
    forall (bt : BotType) (x : Session),
      In x (get bt (chatSessions (store s))) ->
      createdAt x <= updatedAt x /\ updatedAt x <= clock s.
Proof.
  intros s Hreach bt x Hx.
  destruct (reachable_Shape s Hreach) as [Hstore _].
  destruct (Hstore bt x Hx) as (_ & _ & _ & Hc & Hu). split; assumption.
Qed.

Lemma dates_in_order_witness :
  createdAt failedSession <= updatedAt failedSession
  /\ updatedAt failedSession <= clock sys3.
Proof.
  exact (dates_in_order sys3 reachable_sys3 legal failedSession failedSession_stored).
Defined.

Lemma renderMessage_stamped (getHours getMinutes : Z -> nat) (r : Role) (m : Turn) :
  stamped r m -> b_time (renderMessage getHours getMinutes m) <> None.
Proof.
  intros (_ & Ht & _). unfold renderMessage. simpl.
  destruct (timestamp (payload m)); [discriminate|contradiction].
Qed.

Lemma render_exchanges (getHours getMinutes : Z -> nat) (ex : list Turn) :
  exchanges ex ->
  Forall (fun b => b_time b <> None) (map (renderMessage getHours getMinutes) ex).
Proof.
  induction 1 as [|u a rest Hu _ Ha _ IH]; simpl; constructor.
  - eapply renderMessage_stamped, Hu.
  - constructor; [eapply renderMessage_stamped, Ha | exact IH].
Qed.

(** X13. In every reachable configuration the rendered transcript of a
    stored session starts with the greeting bubble, drawn on the system side
    and without a time (its timestamp is stored beside the payload, where
    the renderer does not look), while every later bubble shows a time. *)
Theorem renderTranscript_times :
  forall (getHours getMinutes : Z -> nat) (s : Sys),
    reachable s ->
    forall (bt : BotType) (x : Session),
      In x (get bt (chatSessions (store s))) ->
      exists later,
        renderTranscript getHours getMinutes x
        = mkBubble false (greetingContent bt) None :: later
        /\ Forall (fun b => b_time b <> None) later.
Proof.
  intros getHours getMinutes s Hreach bt x Hx.
  destruct (reachable_Shape s Hreach) as [Hstore _].
  destruct (Hstore bt x Hx) as ((t & ex & Hms & Hex) & _).
  exists (map (renderMessage getHours getMinutes) ex).
  unfold renderTranscript. rewrite Hms. split; [reflexivity|].
  apply render_exchanges, Hex.
Qed.

Lemma renderTranscript_times_witness :
  exists later,
    renderTranscript (fun t => Z.to_nat ((t / 3600000) mod 24))
                     (fun t => Z.to_nat ((t / 60000) mod 60)) failedSession
    = mkBubble false (greetingContent legal) None :: later
    /\ Forall (fun b => b_time b <> None) later.
Proof.
  exact (renderTranscript_times _ _ sys3 reachable_sys3 legal failedSession
                                failedSession_stored).
Defined.

(** ** Unique ids and the current pointer *)

Lemma page_step_step (s s' : Sys) : page_step s s' -> step s s'.
Proof.
  destruct 1; [ apply step_create | eapply step_submit | eapply step_settle
              | apply step_switch | apply step_delete | apply step_list ];
    eassumption.
Qed.

Lemma page_reachable_reachable (s : Sys) : page_reachable s -> reachable s.
Proof.
  induction 1 as [t0|s s' _ IH Hstep]; [apply reach_init|].
  eapply reach_step; [exact IH | apply page_step_step, Hstep].
Qed.

Lemma ids_NoDup_filter (keep : Session -> bool) (sessions : list Session) :
  NoDup (map id sessions) -> NoDup (map id (filter keep sessions)).
Proof.
  intros Hnd. induction sessions as [|x rest IH]; simpl in *; [constructor|].
  apply NoDup_cons_iff in Hnd. destruct Hnd as [Hfresh Hrest].
  destruct (keep x); simpl; [|exact (IH Hrest)].
  apply NoDup_cons_iff. split; [|exact (IH Hrest)].
  rewrite in_map_iff. intros (y & Hy & Hin).
  apply filter_In in Hin. apply Hfresh, in_map_iff. exists y. tauto.
Qed.

Lemma NoDup_map_In_inj {A B} (f : A -> B) (l : list A) (a b : A) :
  NoDup (map f l) -> In a l -> In b l -> f a = f b -> a = b.
Proof.
  induction l as [|c l IH]; intros H Ha Hb E; [destruct Ha|].
  simpl in H. inversion H as [|? ? Hnotin Hl]; subst.
  destruct Ha as [->|Ha], Hb as [->|Hb]; try reflexivity.
  - exfalso. apply Hnotin. rewrite E. now apply in_map.
  - exfalso. apply Hnotin. rewrite <- E. now apply in_map.
  - now apply IH.
Qed.

Lemma updateSession_ids (bt bt' : BotType) (sid : string) (ms : list Turn)
    (now : Z) (prev : Store) :
  map id (get bt' (chatSessions (updateSession bt sid ms now prev)))
  = map id (get bt' (chatSessions prev)).
Proof.
  destruct (BotType_eq_dec bt' bt) as [->|Hne].
  - rewrite updateSession_sessions, map_map. apply map_ext.
    intros x. destruct (id x =? sid)%string; reflexivity.
  - now rewrite updateSession_other.
Qed.

Lemma pointer_ok_same_ids (st st' : Store) (bt : BotType) :
  map id (get bt (chatSessions st')) = map id (get bt (chatSessions st)) ->
  get bt (currentSessionId st') = get bt (currentSessionId st) ->
  pointer_ok st bt -> pointer_ok st' bt.
Proof.
  unfold pointer_ok. intros Hids Hptr H. rewrite Hptr.
  destruct (get bt (currentSessionId st)) as [cur|].
  - destruct H as [x [Hx Hid]].
    assert (Hin : In cur (map id (get bt (chatSessions st'))))
      by (rewrite Hids, <- Hid; now apply in_map).
    apply in_map_iff in Hin. destruct Hin as [y [Hy Hin]]. now exists y.
  - rewrite H in Hids. destruct (get bt (chatSessions st')); [reflexivity|discriminate].
Qed.

Lemma page_updateSession (st : Store) (bt : BotType) (sid : string)
    (ms : list Turn) (now : Z) :
  (forall bt', NoDup (map id (get bt' (chatSessions st))) /\ pointer_ok st bt') ->
  forall bt',
    NoDup (map id (get bt' (chatSessions (updateSession bt sid ms now st))))
    /\ pointer_ok (updateSession bt sid ms now st) bt'.
Proof.
  intros H bt'. destruct (H bt') as [Hnd Hptr]. split.
  - now rewrite updateSession_ids.
  - eapply pointer_ok_same_ids; [apply updateSession_ids|reflexivity|exact Hptr].
Qed.

Lemma step_preserves_Page (s s' : Sys) : page_step s s' -> Page s -> Page s'.
Proof.
  intros Hstep HP.
  destruct Hstep as
    [ s snap bt e H1 H2 H3 H4 Hfresh
    | s cfg ui e r cur Hcfg H1 H2 H3 Hcur Hsub
    | s p before after o e ui Hp H1 H2
    | s bt x Hx | s bt sessionId | s bt ]; unfold Page; cbn [store].
  - (* createNewSession with a fresh id *)
    intros bt'. destruct (HP bt') as [Hnd Hptr].
    destruct (BotType_eq_dec bt' bt) as [->|Hne].
    + unfold createNewSession, pointer_ok. cbn [snd chatSessions currentSessionId].
      rewrite !get_set_same. split.
      * rewrite map_app. simpl.
        eapply Permutation_NoDup; [apply Permutation_cons_append|].
        constructor; [|exact Hnd]. intros Hin. apply in_map_iff in Hin.
        destruct Hin as [y [Hy Hin]]. exact (Hfresh y Hin Hy).
      * exists (newSession snap bt e). split; [|reflexivity].
        apply in_or_app. right. now left.
    + unfold createNewSession, pointer_ok. cbn [snd chatSessions currentSessionId].
      rewrite !get_set_other by exact Hne. split; assumption.
  - (* handleSubmit *)
    destruct (handleSubmit_inv _ _ _ _ _ _ Hsub) as [cur' (_ & _ & ->)].
    cbn [sub_store]. apply page_updateSession, HP.
  - (* sendMessage settles *)
    rewrite settle_store. apply page_updateSession, HP.
  - (* switchToSession to a listed session *)
    intros bt'. destruct (HP bt') as [Hnd Hptr]. split; [exact Hnd|].
    unfold pointer_ok, switchToSession. cbn [chatSessions currentSessionId].
    destruct (BotType_eq_dec bt' bt) as [->|Hne].
    + rewrite get_set_same. now exists x.
    + rewrite get_set_other by exact Hne. exact Hptr.
  - (* deleteSession *)
    intros bt'. destruct (HP bt') as [Hnd Hptr].
    destruct (BotType_eq_dec bt' bt) as [->|Hne].
    + split; [rewrite removeSession_sessions; apply ids_NoDup_filter, Hnd|].
      unfold pointer_ok in *. rewrite removeSession_sessions.
      destruct (get bt (currentSessionId (store s))) as [cur|] eqn:Hcur.
      * destruct (String.eqb_spec cur sessionId) as [->|Hneq].
        -- rewrite (removeSession_current _ _ _ Hcur).
           destruct (last_elem _) as [y|] eqn:L; simpl.
           ++ exists y. split; [apply last_elem_In, L | reflexivity].
           ++ apply last_elem_none, L.
        -- assert (Hkeep : get bt (currentSessionId (removeSession bt sessionId (store s)))
                           = Some cur).
           { unfold removeSession, deleteSession. simpl. rewrite Hcur.
             rewrite (proj2 (String.eqb_neq _ _) Hneq). exact Hcur. }
           rewrite Hkeep. destruct Hptr as [y [Hy Hid]]. exists y.
           split; [|exact Hid]. apply filter_In. split; [exact Hy|].
           apply other_than_true. congruence.
      * assert (Hkeep : get bt (currentSessionId (removeSession bt sessionId (store s)))
                        = None).
        { unfold removeSession, deleteSession. simpl. rewrite Hcur. exact Hcur. }
        rewrite Hkeep, Hptr. reflexivity.
    + assert (Hs : get bt' (chatSessions (removeSession bt sessionId (store s)))
                   = get bt' (chatSessions (store s))).
      { unfold removeSession, deleteSession. simpl. apply get_set_other, Hne. }
      assert (Hc : get bt' (currentSessionId (removeSession bt sessionId (store s)))
                   = get bt' (currentSessionId (store s))).
      { unfold removeSession, deleteSession. simpl.
        destruct (get bt (currentSessionId (store s))) as [cur|]; [|reflexivity].
        destruct (cur =? sessionId)%string; [|reflexivity].
        destruct (last_elem _); apply get_set_other, Hne. }
      split; [now rewrite Hs|].
      eapply pointer_ok_same_ids; [now rewrite Hs | exact Hc | exact Hptr].
  - (* getSessions *)
    intros bt'. destruct (HP bt') as [Hnd Hptr].
    destruct (BotType_eq_dec bt' bt) as [->|Hne].
    + assert (Hperm : Permutation (get bt (chatSessions (store s)))
                        (get bt (chatSessions (snd (getSessions (store s) bt))))).
      { rewrite getSessions_snd. apply Array_sort_perm. }
      split.
      * eapply Permutation_NoDup; [apply Permutation_map, Hperm | exact Hnd].
      * unfold pointer_ok in *.
        change (currentSessionId (snd (getSessions (store s) bt)))
          with (currentSessionId (store s)).
        destruct (get bt (currentSessionId (store s))) as [cur|].
        -- destruct Hptr as [y [Hy Hid]]. exists y. split; [|exact Hid].
           eapply Permutation_in; eassumption.
        -- rewrite Hptr in Hperm. apply Permutation_nil in Hperm. exact Hperm.
    + assert (Hs : get bt' (chatSessions (snd (getSessions (store s) bt)))
                   = get bt' (chatSessions (store s))).
      { unfold getSessions. simpl. apply get_set_other, Hne. }
      split; [now rewrite Hs|].
      eapply pointer_ok_same_ids; [now rewrite Hs | reflexivity | exact Hptr].
Qed.

Lemma page_reachable_Page (s : Sys) : page_reachable s -> Page s.
Proof.
  induction 1 as [t0|s s' _ IH Hstep].
  - intros []; split; try constructor; reflexivity.
  - eapply step_preserves_Page; eassumption.
Qed.

Lemma stored_id_not_empty (s : Sys) (bt : BotType) (x : Session) :
  reachable s -> In x (get bt (chatSessions (store s))) ->
  (id x =? "")%string = false.
Proof.
  intros Hreach Hx. destruct (reachable_Shape s Hreach) as [Hstore _].
  destruct (Hstore bt x Hx) as (_ & [e He] & _). rewrite He.
  apply generateSessionId_not_empty.
Qed.

Lemma page_sys3 : page_reachable sys3.
Proof.
  apply (page_more sys2).
  - apply (page_more sys1).
    + apply (page_more (initialSys 0)); [apply page_init|].
      apply (page_create (initialSys 0) initialStore legal env0);
        simpl; lia.
    + apply (page_submit sys1 Legalbot askView askEnv asked legalSession);
        try (simpl; lia); try reflexivity. now left.
  - apply (page_settle sys2 (mkPending Legalbot legalSession (sub_messages asked))
                       [] [] (Rejected "network") failEnv (sub_view asked));
      try reflexivity; simpl; lia.
Defined.

(** X3. When ids are fresh and switches go to listed sessions, the current
    pointer of a category never dangles: either the category has no session,
    its pointer is unset and [getCurrentSession] returns nothing (the screen
    shows its spinner and the mount effect creates a session), or
    [getCurrentSession] returns a session of the category, the one the
    pointer names. *)
Theorem current_session_resolves :
  forall (s : Sys),
    page_reachable s ->
    forall bt : BotType,
      (get bt (chatSessions (store s)) = []
       /\ get bt (currentSessionId (store s)) = None
       /\ getCurrentSession (store s) bt = None)
      \/ (exists cur,
            getCurrentSession (store s) bt = Some cur
            /\ In cur (get bt (chatSessions (store s)))
            /\ get bt (currentSessionId (store s)) = Some (id cur)).
Proof.
  intros s Hpage bt.
  destruct (page_reachable_Page s Hpage bt) as [_ Hptr].
  pose proof (page_reachable_reachable s Hpage) as Hreach.
  unfold pointer_ok in Hptr. unfold getCurrentSession.
  destruct (get bt (currentSessionId (store s))) as [c|] eqn:Hc.
  - right. destruct Hptr as [x [Hx Hid]].
    pose proof (stored_id_not_empty s bt x Hreach Hx) as Hne.
    rewrite Hid in Hne. rewrite Hne.
    destruct (find (fun session => (id session =? c)%string)
                   (get bt (chatSessions (store s)))) as [y|] eqn:F.
    + exists y. apply find_some in F. destruct F as [Hy E].
      apply String.eqb_eq in E.
      split; [reflexivity|]. split; [exact Hy | now rewrite E].
    + exfalso. apply (find_none _ _ F) in Hx.
      rewrite Hid, String.eqb_refl in Hx. discriminate.
  - left. repeat split. exact Hptr.
Qed.

Lemma current_session_resolves_witness :
  (get legal (chatSessions (store sys3)) = []
   /\ get legal (currentSessionId (store sys3)) = None
   /\ getCurrentSession (store sys3) legal = None)
  \/ (exists cur,
        getCurrentSession (store sys3) legal = Some cur
        /\ In cur (get legal (chatSessions (store sys3)))
        /\ get legal (currentSessionId (store sys3)) = Some (id cur)).
Proof. exact (current_session_resolves sys3 page_sys3 legal). Defined.

Lemma filter_unique_length (l : list Session) (x : Session) :
  NoDup (map id l) -> In x l ->
  (List.length (filter (other_than (id x)) l) + 1 = List.length l)%nat.
Proof.
  induction l as [|a l IH]; intros Hnd Hx; [destruct Hx|].
  simpl in Hnd. inversion Hnd as [|? ? Hnotin Hl]; subst.
  simpl. destruct Hx as [->|Hx].
  - unfold other_than at 1. rewrite String.eqb_refl. simpl.
    rewrite filter_other_than_all; [lia|].
    intros y Hy E. apply Hnotin. rewrite <- E. now apply in_map.
  - assert (Hne : id a <> id x).
    { intros E. apply Hnotin. rewrite E. now apply in_map. }
    rewrite (proj2 (other_than_true (id x) a) Hne). simpl.
    rewrite <- (IH Hl Hx). lia.
Qed.

(** X4. When created ids are fresh, the sessions of a category always have
    pairwise different ids, and deleting a stored session removes that
    session and no other: the collection is one shorter, the session is
    gone, every other session is still there. *)
Theorem ids_are_unique :
  forall (s : Sys),
    page_reachable s ->
    forall bt : BotType,
      let l := get bt (chatSessions (store s)) in
      NoDup (map id l)
      /\ forall x, In x l ->
           let l' := get bt (chatSessions (removeSession bt (id x) (store s))) in
           (List.length l' + 1 = List.length l)%nat
           /\ ~ In x l'
           /\ forall y, In y l -> y <> x -> In y l'.
Proof.
  intros s Hpage bt l.
  destruct (page_reachable_Page s Hpage bt) as [Hnd _]. fold l in Hnd.
  split; [exact Hnd|].
  intros x Hx l'. subst l'. rewrite removeSession_sessions. fold l.
  split; [apply filter_unique_length; assumption|].
  split.
  - intros Hin. apply filter_In in Hin. destruct Hin as [_ Hin].
    apply other_than_true in Hin. now apply Hin.
  - intros y Hy Hne. apply filter_In. split; [exact Hy|].
    apply other_than_true. intros E. apply Hne.
    eapply NoDup_map_In_inj; eassumption.
Qed.

Lemma ids_are_unique_witness :
  let l := get legal (chatSessions (store sys3)) in
  NoDup (map id l)
  /\ forall x, In x l ->
       let l' := get legal (chatSessions (removeSession legal (id x) (store sys3))) in
       (List.length l' + 1 = List.length l)%nat
       /\ ~ In x l'
       /\ forall y, In y l -> y <> x -> In y l'.
Proof. exact (ids_are_unique sys3 page_sys3 legal). Defined.

Lemma find_unique_perm (c : string) (l l' : list Session) :
  NoDup (map id l) -> Permutation l l' ->
  find (fun session => (id session =? c)%string) l
  = find (fun session => (id session =? c)%string) l'.
Proof.
  intros Hnd Hperm.
  destruct (find (fun session => (id session =? c)%string) l) as [y|] eqn:F;
    destruct (find (fun session => (id session =? c)%string) l') as [y'|] eqn:F';
    try reflexivity.
  - apply find_some in F. apply find_some in F'.
    destruct F as [Hy E]. destruct F' as [Hy' E'].
    apply String.eqb_eq in E. apply String.eqb_eq in E'.
    f_equal. eapply NoDup_map_In_inj; [exact Hnd | exact Hy | | congruence].
    eapply Permutation_in; [apply Permutation_sym, Hperm | exact Hy'].
  - apply find_some in F. destruct F as [Hy E].
    assert (Hin : In y l') by (eapply Permutation_in; eassumption).
    pose proof (find_none _ _ F' y Hin) as N. simpl in N. congruence.
  - apply find_some in F'. destruct F' as [Hy' E'].
    assert (Hin : In y' l)
      by (eapply Permutation_in; [apply Permutation_sym, Hperm | exact Hy']).
    pose proof (find_none _ _ F y' Hin) as N. simpl in N. congruence.
Qed.

Lemma filter_id_absent (c : string) (l : list Session) :
  ~ In c (map id l) ->
  filter (fun session => (c =? id session)%string) l = [].
Proof.
  induction l as [|b l IH]; intros Hnotin; [reflexivity|].
  simpl. destruct (String.eqb_spec c (id b)) as [E|E].
  - exfalso. apply Hnotin. left. now symmetry.
  - apply IH. intros Hin. apply Hnotin. now right.
Qed.

Lemma count_current (c : string) (l : list Session) :
  NoDup (map id l) -> In c (map id l) ->
  List.length (filter (fun session => (c =? id session)%string) l) = 1%nat.
Proof.
  induction l as [|a l IH]; intros Hnd Hc; [destruct Hc|].
  simpl in Hnd, Hc. inversion Hnd as [|? ? Hnotin Hl]; subst.
  simpl. destruct (String.eqb_spec c (id a)) as [E|E].
  - subst c. rewrite (filter_id_absent _ _ Hnotin). reflexivity.
  - apply IH; [exact Hl|]. destruct Hc as [Hc|Hc]; [congruence|exact Hc].
Qed.

Lemma length_filter_map {A B} (p : B -> bool) (g : A -> B) (l : list A) :
  List.length (filter p (map g l)) = List.length (filter (fun a => p (g a)) l).
Proof.
  induction l as [|a l IH]; [reflexivity|].
  simpl. destruct (p (g a)); simpl; now rewrite IH.
Qed.

(** X15. When ids are fresh and switches go to listed sessions, the history
    panel shows every session of the category once, highlights exactly one
    row as soon as the category has a session, and, although rendering it
    sorts the stored array in place, leaves [getCurrentSession] returning
    the same session as before. *)
Theorem renderHistory_spec :
  forall (s : Sys),
    page_reachable s ->
    forall (bt : BotType) (toLocaleDateString : Z -> string) (now : Z),
      let l := get bt (chatSessions (store s)) in
      let rows := fst (renderHistory toLocaleDateString now (store s) bt) in
      let st' := snd (renderHistory toLocaleDateString now (store s) bt) in
      Permutation (map id l) (map hr_id rows)
      /\ List.length (filter hr_current rows)
         = match l with [] => 0%nat | _ :: _ => 1%nat end
      /\ getCurrentSession st' bt = getCurrentSession (store s) bt.
Proof.
  intros s Hpage bt loc now l rows st'.
  destruct (page_reachable_Page s Hpage bt) as [Hnd Hptr]. fold l in Hnd.
  pose proof (Array_sort_perm updatedAt l) as Hperm.
  assert (Hrows : map hr_id rows = map id (Array_sort (desc_cmp updatedAt) l)).
  { subst rows. unfold renderHistory. cbn [fst]. rewrite map_map.
    rewrite getSessions_fst. reflexivity. }
  split; [rewrite Hrows; apply Permutation_map, Hperm|].
  split.
  - subst rows. unfold renderHistory. cbn [fst].
    rewrite length_filter_map. cbn [hr_current]. rewrite getSessions_fst. fold l.
    unfold is_current. unfold pointer_ok in Hptr. fold l in Hptr.
    destruct (get bt (currentSessionId (store s))) as [c|].
    + destruct Hptr as [x [Hx Hid]].
      rewrite count_current.
      * destruct l; [destruct Hx|reflexivity].
      * eapply Permutation_NoDup; [apply Permutation_map, Hperm|exact Hnd].
      * rewrite <- Hid. apply in_map. eapply Permutation_in; eassumption.
    + rewrite Hptr. reflexivity.
  - subst st'. unfold renderHistory. cbn [snd]. unfold getCurrentSession.
    change (currentSessionId (snd (getSessions (store s) bt)))
      with (currentSessionId (store s)).
    destruct (get bt (currentSessionId (store s))) as [c|]; [|reflexivity].
    destruct (c =? "")%string; [reflexivity|].
    rewrite getSessions_snd. fold l. symmetry.
    apply find_unique_perm; assumption.
Qed.

Lemma renderHistory_spec_witness :
  let l := get legal (chatSessions (store sys3)) in
  let rows := fst (renderHistory (fun _ => "3/11/2026") 7000 (store sys3) legal) in
  let st' := snd (renderHistory (fun _ => "3/11/2026") 7000 (store sys3) legal) in
  Permutation (map id l) (map hr_id rows)
  /\ List.length (filter hr_current rows)
     = match l with [] => 0%nat | _ :: _ => 1%nat end
  /\ getCurrentSession st' legal = getCurrentSession (store sys3) legal.
Proof.
  exact (renderHistory_spec sys3 page_sys3 legal (fun _ => "3/11/2026") 7000).
Defined.

Example renderHistory_sys3 :
  fst (renderHistory (fun _ => "3/11/2026") 7000 (store sys3) legal)
  = [mkHistoryRow "session_1000_k3j9x0q2a" "Can a tenant be evicted withou..."
                  "Today" 3 true].
Proof. reflexivity. Qed.

(** ** Listing, deleting and titles *)

Lemma with_key_filter {A} (k : A -> Z) (t : Z) (p : A -> bool) (l : list A) :
  with_key k t (filter p l) = filter p (with_key k t l).
Proof.
  unfold with_key. induction l as [|a l IH]; [reflexivity|].
  simpl. destruct (p a) eqn:P, (k a =? t) eqn:K; simpl;
    rewrite ?P, ?K, IH; reflexivity.
Qed.

Lemma Array_sort_filter {A} (k : A -> Z) (p : A -> bool) (l : list A) :
  Array_sort (desc_cmp k) (filter p l) = filter p (Array_sort (desc_cmp k) l).
Proof.
  symmetry. apply Array_sort_unique.
  - apply sorted_filter, Array_sort_sorted.
  - intros t. now rewrite !with_key_filter, Array_sort_stable.
Qed.

(** X16. Deleting a session and listing the category commute as far as the
    collection goes: the stored array and the returned list are the same
    whether the deletion came before or after the listing.  (Only the
    choice of the new current session depends on the order.) *)
Theorem delete_list_commute :
  forall (st : Store) (bt : BotType) (sessionId : string),
    let listed_then_deleted := removeSession bt sessionId (snd (getSessions st bt)) in
    let deleted_then_listed := getSessions (removeSession bt sessionId st) bt in
    chatSessions listed_then_deleted = chatSessions (snd deleted_then_listed)
    /\ get bt (chatSessions listed_then_deleted) = fst deleted_then_listed
    /\ fst deleted_then_listed
       = filter (other_than sessionId) (fst (getSessions st bt)).
Proof.
  intros st bt sessionId a b.
  assert (Hb : fst b = filter (other_than sessionId) (fst (getSessions st bt))).
  { subst b. rewrite !getSessions_fst, removeSession_sessions.
    apply Array_sort_filter. }
  assert (Ha : get bt (chatSessions a) = fst b).
  { subst a. rewrite removeSession_sessions, getSessions_snd, Hb, getSessions_fst.
    reflexivity. }
  split; [|split; assumption].
  assert (Hext : forall bt', get bt' (chatSessions a)
                             = get bt' (chatSessions (snd b))).
  { intros bt'. destruct (BotType_eq_dec bt' bt) as [->|Hne].
    - rewrite Ha. subst b. rewrite getSessions_snd, getSessions_fst. reflexivity.
    - subst a b. unfold removeSession, deleteSession, getSessions. simpl.
      rewrite !get_set_other by exact Hne. reflexivity. }
  pose proof (Hext agri) as H1. pose proof (Hext legal) as H2.
  destruct (chatSessions a), (chatSessions (snd b)). simpl in *. congruence.
Qed.

(** X17. Titles given at creation can repeat.  With unique ids: create a
    session, delete any older one, create another; the two sessions created
    carry the same title ["Chat N"], N being one more than the number of
    sessions the category held at the start. *)
Theorem created_titles_repeat :
  forall (st : Store) (bt : BotType) (e1 e2 : CreateEnv) (x : Session),
    let l := get bt (chatSessions st) in
    NoDup (map id l) ->
    In x l ->
    id x <> generateSessionId e1 ->
    let st1 := snd (createSession bt e1 st) in
    let st2 := removeSession bt (id x) st1 in
    let st3 := snd (createSession bt e2 st2) in
    exists kept first second,
      get bt (chatSessions st3) = kept ++ [first; second]
      /\ id first = generateSessionId e1
      /\ id second = generateSessionId e2
      /\ title first = ("Chat " ++ string_of_nat (List.length l + 1))%string
      /\ title second = title first.
Proof.
  intros st bt e1 e2 x l Hnd Hx Hne st1 st2 st3.
  assert (H1 : get bt (chatSessions st1) = l ++ [newSession st bt e1]).
  { subst st1. unfold createSession, createNewSession. cbn [snd chatSessions].
    apply get_set_same. }
  assert (H2 : get bt (chatSessions st2)
               = filter (other_than (id x)) l ++ [newSession st bt e1]).
  { subst st2. rewrite removeSession_sessions, H1, filter_app. simpl.
    assert (Hk : other_than (id x) (newSession st bt e1) = true).
    { apply other_than_true. simpl. congruence. }
    now rewrite Hk. }
  assert (H3 : get bt (chatSessions st3)
               = filter (other_than (id x)) l
                   ++ [newSession st bt e1; newSession st2 bt e2]).
  { subst st3. unfold createSession, createNewSession. cbn [snd chatSessions].
    rewrite get_set_same, H2, <- app_assoc. reflexivity. }
  exists (filter (other_than (id x)) l), (newSession st bt e1), (newSession st2 bt e2).
  split; [exact H3|]. split; [reflexivity|]. split; [reflexivity|].
  split; [reflexivity|].
  unfold newSession. cbn [title]. rewrite H2. fold l.
  rewrite length_app. simpl.
  pose proof (filter_unique_length l x Hnd Hx) as Hlen.
  replace (List.length (filter (other_than (id x)) l) + 1 + 1)%nat
    with (List.length l + 1)%nat by lia.
  reflexivity.
Qed.

Lemma created_titles_repeat_witness :
  let l := get agri (chatSessions threeSessions) in
  let x := newSession initialStore agri env0 in
  let e1 := mkCreateEnv 4000 "a1b2c3d4e" 4000 4000 4000 in
  let e2 := mkCreateEnv 5000 "f5g6h7i8j" 5000 5000 5000 in
  let st1 := snd (createSession agri e1 threeSessions) in
  let st2 := removeSession agri (id x) st1 in
  let st3 := snd (createSession agri e2 st2) in
  exists kept first second,
    get agri (chatSessions st3) = kept ++ [first; second]
    /\ id first = generateSessionId e1
    /\ id second = generateSessionId e2
    /\ title first = ("Chat " ++ string_of_nat (List.length l + 1))%string
    /\ title second = title first.
Proof.
  apply (created_titles_repeat threeSessions agri
           (mkCreateEnv 4000 "a1b2c3d4e" 4000 4000 4000)
           (mkCreateEnv 5000 "f5g6h7i8j" 5000 5000 5000)
           (newSession initialStore agri env0)).
  - vm_compute. repeat constructor; simpl; intuition discriminate.
  - vm_compute. left. reflexivity.
  - discriminate.
Defined.

Lemma string_length_append (a b : string) :
  String.length (a ++ b) = (String.length a + String.length b)%nat.
Proof. induction a as [|c a IH]; simpl; [reflexivity|now rewrite IH]. Qed.

(** X19. A derived title is never longer than 33 characters, whatever the
    messages: at most 30 characters of the first question and the marker,
    or the 8 characters of ["New Chat"]. *)
Theorem generateSessionTitle_length :
  forall ms : list Turn,
    (String.length (generateSessionTitle ms) <= 33)%nat.
Proof.
  intros ms. unfold generateSessionTitle.
  destruct (find has_user ms) as [u|]; [|simpl; lia].
  destruct (Nat.ltb_spec 30 (String.length (content (payload u)))) as [Hlt|Hle].
  - rewrite string_length_append.
    destruct (substring_prefix 30 (content (payload u))) as [rest [_ Hlen]]; [lia|].
    rewrite Hlen. simpl. lia.
  - lia.
Qed.
